(** * Clinic appointment scheduling: availability, numbering, booking

    A shallow embedding of the appointment core of the clinic backend:

    - [Postgres] holds what the code relies on from its store: an awaited
      query resolves or rejects, a statement is parsed before any row is
      read, and a [table.string] column is a varchar(255);
    - [Appointment] follows the model class [Appointment]
      (models/Appointment.js): [generateAppointmentNumber],
      [checkAvailability], [findById], [create], [update];
    - [AppointmentController] follows controllers/appointmentController.js:
      [createAppointment], [updateAppointment], [cancelAppointment];
    - [Routes] follows routes/appointments.js together with the Joi schemas
      of middleware/validation.js;
    - [InFlight] splits [createAppointment] at its awaited queries, to
      follow two requests that the event loop interleaves.

    Timestamps are integers (milliseconds since the epoch, what
    [Date.getTime] returns); a duration of [d] minutes is [d * 60000]
    milliseconds.  A table is the list of its rows; the constraints of the
    migration (primary key, unique appointment number) are checked by
    [Appointment.insert].  An id is a uuid in the spelling the store prints
    it in; the cast of the text of a request to a uuid is not modelled. *)

From Stdlib Require Import ZArith List String Ascii Bool Lia DecimalString.
From Stdlib Require Import Sorted FinFun Permutation.
From Stdlib Require DecimalFacts DecimalPos.
Import ListNotations.

#[local] Open Scope string_scope.
#[local] Open Scope Z_scope.

(* ================================================================== *)
(** ** JavaScript built-ins the code relies on *)

Module JS.

(** [x || d] on a number that may be missing: [undefined] and [0] are
    falsy. *)
Definition or_num (x : option Z) (d : Z) : Z :=
  match x with
  | Some v => if v =? 0 then d else v
  | None => d
  end.

(** Truthiness of a string: only the empty string is falsy. *)
Definition truthy (s : string) : bool := negb (s =? "")%string.

(** [x || d] on a string that may be missing. *)
Definition or_str (x : option string) (d : string) : string :=
  match x with
  | Some s => if truthy s then s else d
  | None => d
  end.

(** [Number.prototype.toString] on an integer. *)
Definition toString (n : Z) : string := NilZero.string_of_int (Z.to_int n).

Fixpoint fill (n : nat) (c : ascii) : string :=
  match n with
  | O => EmptyString
  | S k => String c (fill k c)
  end.

(** [s.padStart(n, c)] for a one-character filler: never truncates. *)
Definition padStart (n : nat) (c : ascii) (s : string) : string :=
  fill (n - String.length s) c ++ s.

(** [s.replace(pat, '')]: the first occurrence of [pat] is removed. *)
Fixpoint remove_first (pat s : string) : string :=
  if String.prefix pat s
  then substring (String.length pat) (String.length s - String.length pat) s
  else match s with
       | EmptyString => EmptyString
       | String c s' => String c (remove_first pat s')
       end.

Definition is_white_space (c : ascii) : bool :=
  match nat_of_ascii c with
  | 9%nat | 10%nat | 11%nat | 12%nat | 13%nat | 32%nat => true
  | _ => false
  end.

Fixpoint skip_white_space (s : string) : string :=
  match s with
  | String c s' => if is_white_space c then skip_white_space s' else s
  | EmptyString => EmptyString
  end.

Definition digit_value (c : ascii) : option Z :=
  let n := Z.of_nat (nat_of_ascii c) in
  if (48 <=? n) && (n <=? 57) then Some (n - 48)
  else if (97 <=? n) && (n <=? 122) then Some (n - 87)
  else if (65 <=? n) && (n <=? 90) then Some (n - 55)
  else None.

(** The longest run of digits of the radix; [None] when there is none. *)
Fixpoint parse_digits (radix : Z) (acc : option Z) (s : string) : option Z :=
  match s with
  | EmptyString => acc
  | String c s' =>
      match digit_value c with
      | Some d =>
          if d <? radix
          then parse_digits radix
                 (Some (match acc with Some a => a * radix + d | None => d end)) s'
          else acc
      | None => acc
      end
  end.

(** [parseInt(s)] without a radix: leading white space, a sign, an
    optional [0x], then digits; [None] stands for [NaN].  (Values are
    exact integers: the rounding of doubles beyond 2^53 is not
    modelled.) *)
Definition parseInt (s : string) : option Z :=
  let s1 := skip_white_space s in
  let '(neg, s2) :=
    match s1 with
    | String c r =>
        if (c =? "-")%char then (true, r)
        else if (c =? "+")%char then (false, r)
        else (false, s1)
    | EmptyString => (false, s1)
    end in
  let '(radix, s3) :=
    match s2 with
    | String c1 (String c2 r) =>
        if (c1 =? "0")%char && ((c2 =? "x")%char || (c2 =? "X")%char)
        then (16, r)
        else (10, s2)
    | _ => (10, s2)
    end in
  match parse_digits radix None s3 with
  | Some v => Some (if neg then - v else v)
  | None => None
  end.

(** [n + 1] and [n.toString()] on a number that may be [NaN]. *)
Definition succ (n : option Z) : option Z :=
  match n with Some v => Some (v + 1) | None => None end.

Definition numToString (n : option Z) : string :=
  match n with Some v => toString v | None => "NaN" end.

End JS.

(* ================================================================== *)
(** ** The tables (migrations 001, 002, 003) *)

Inductive user_role := admin | doctor | nurse | receptionist.
Inductive user_status := active | inactive | suspended.

Inductive appointment_type :=
  consultation | follow_up | emergency | procedure | checkup.

Inductive appointment_status :=
  scheduled | confirmed | in_progress | completed | cancelled | no_show.

Definition user_role_eqb (a b : user_role) : bool :=
  match a, b with
  | admin, admin | doctor, doctor | nurse, nurse
  | receptionist, receptionist => true
  | _, _ => false
  end.

Definition user_status_eqb (a b : user_status) : bool :=
  match a, b with
  | active, active | inactive, inactive | suspended, suspended => true
  | _, _ => false
  end.

Definition status_eqb (a b : appointment_status) : bool :=
  match a, b with
  | scheduled, scheduled | confirmed, confirmed | in_progress, in_progress
  | completed, completed | cancelled, cancelled | no_show, no_show => true
  | _, _ => false
  end.

Record user := mkUser {
  user_id : string;
  role : user_role;
  user_state : user_status
}.

(** A row of [appointments].  The billing columns, [checked_in_at] and
    [created_at] are written by none of the operations below and are left
    out. *)
Record appointment := mkAppointment {
  id : string;
  appointment_number : string;
  patient_id : string;
  doctor_id : string;
  created_by : string;
  appointment_date : Z;
  duration_minutes : Z;
  type : appointment_type;
  status : appointment_status;
  chief_complaint : option string;
  notes : option string;
  preparation_instructions : option string;
  confirmed_at : option Z;
  started_at : option Z;
  completed_at : option Z;
  cancelled_at : option Z;
  cancellation_reason : option string;
  cancelled_by : option string;
  updated_at : Z
}.

Record database := mkDatabase {
  patients : list string;          (* the ids of the rows of [patients] *)
  users : list user;
  appointments : list appointment
}.

(** What [new Date()] reads while a request is handled. *)
Record clock := mkClock {
  now : Z;                         (* getTime() *)
  fullYear : Z;                    (* getFullYear() *)
  monthIndex : Z                   (* getMonth(), 0 to 11 *)
}.

(** The body of POST /appointments ([appointmentSchema]). *)
Record appointment_data := mkAppointmentData {
  req_patient_id : string;
  req_doctor_id : string;
  req_appointment_date : Z;
  req_duration_minutes : option Z;
  req_type : appointment_type;
  req_chief_complaint : option string;
  req_notes : option string;
  req_preparation_instructions : option string
}.

(** The object [updateData]: the keys of [appointmentUpdateSchema] that a
    client may send, and the keys the controller adds. *)
Record update_data := mkUpdateData {
  upd_appointment_date : option Z;
  upd_duration_minutes : option Z;
  upd_type : option appointment_type;
  upd_status : option appointment_status;
  upd_chief_complaint : option string;
  upd_notes : option string;
  upd_preparation_instructions : option string;
  upd_cancellation_reason : option string;
  upd_confirmed_at : option Z;
  upd_started_at : option Z;
  upd_completed_at : option Z;
  upd_cancelled_at : option Z;
  upd_cancelled_by : option string
}.

(** An HTTP answer: [res.status(c).json({success, data})] or
    [res.status(c).json({error, ...})]. *)
Inductive response :=
| Success (code : Z) (data : option appointment)
| Failure (code : Z) (error : string).

(* ================================================================== *)
(** ** The time window of an appointment *)

Definition minutes (d : Z) : Z := d * 60000.

Definition window_start (r : appointment) : Z := appointment_date r.
Definition window_end (r : appointment) : Z :=
  appointment_date r + minutes (duration_minutes r).

(** The statuses [checkAvailability] looks at. *)
Definition occupies (s : appointment_status) : bool :=
  match s with
  | scheduled | confirmed | in_progress => true
  | completed | cancelled | no_show => false
  end.

(* ================================================================== *)
(** ** The store

    The backend runs on PostgreSQL (README; the migrations default the
    keys to [gen_random_uuid()], the models destructure [.returning('*')]
    and search with [ilike]).  Every query of the models is awaited: it
    resolves to its rows, or it rejects and the [catch] of the controller
    answers 500. *)

Module Postgres.

Inductive awaited (A : Type) :=
| Resolved (a : A)
| Rejected.

Arguments Resolved {A} a.
Arguments Rejected {A}.

(** What follows the first occurrence of [word] in [s]. *)
Fixpoint following (word s : string) : option string :=
  if String.prefix word s
  then Some (substring (String.length word)
               (String.length s - String.length word) s)
  else match s with
       | EmptyString => None
       | String _ s' => following word s'
       end.

(** The key word INTERVAL introduces a constant: a quoted string, or a
    precision in parentheses and then the string.  The form
    [INTERVAL expr unit] with a column for [expr] belongs to MySQL; here
    it is a syntax error, raised when the statement is parsed, before any
    row is read. *)
Definition parses (fragment : string) : bool :=
  match following "INTERVAL" fragment with
  | None => true
  | Some rest =>
      match JS.skip_white_space rest with
      | String c _ => (c =? "'")%char || (c =? "(")%char
      | EmptyString => false
      end
  end.





(** [table.string(name)] without a length is varchar(255): a longer
    value makes the statement fail. *)
Definition fits_string (s : string) : bool :=
  (String.length s <=? 255)%nat.

End Postgres.

Import Postgres.

(* ================================================================== *)
(** ** models/Appointment.js *)

Module Appointment.

(** [where('appointments.id', id).first()]: the row of that key.  The
    joined columns of the patient, the doctor and the creator are left
    out; [i] is a uuid in the spelling of the stored keys. *)
Definition findById (tbl : list appointment) (i : string) : option appointment :=
  find (fun r => (id r =? i)%string) tbl.

(** [ORDER BY appointment_number DESC] then [first()]: the greatest
    string, bytes compared left to right. *)
Definition greater (a b : string) : string :=
  match String.compare a b with Lt => b | _ => a end.

Fixpoint greatest (l : list string) : option string :=
  match l with
  | [] => None
  | s :: l' =>
      match greatest l' with
      | Some m => Some (greater s m)
      | None => Some s
      end
  end.

Definition number_prefix (year month0 : Z) : string :=
  "A" ++ JS.toString year ++ JS.padStart 2 "0"%char (JS.toString (month0 + 1)).

(** [WHERE appointment_number LIKE '<prefix>%']: the prefix holds no
    wildcard, so the pattern selects the numbers that start with it. *)
Definition in_scope (prefix : string) (l : list string) : list string :=
  filter (String.prefix prefix) l.

Definition next_number (prefix : string) (numbers : list string) : option Z :=
  match greatest (in_scope prefix numbers) with
  | Some last => JS.succ (JS.parseInt (JS.remove_first prefix last))
  | None => Some 1
  end.

(** The number computed from the appointment numbers the query sees. *)
Definition number_after (c : clock) (numbers : list string) : string :=
  let prefix := number_prefix (fullYear c) (monthIndex c) in
  let nextNumber := next_number prefix numbers in
  prefix ++ JS.padStart 4 "0"%char (JS.numToString nextNumber).

Definition generateAppointmentNumber
    (c : clock) (tbl : list appointment) : string :=
  number_after c (map appointment_number tbl).

(** The three OR'd sub-conditions of the conflict query, on a row
    [es, ee) against the candidate [startTime, endTime). *)
Definition starts_during (es ee startTime : Z) : bool :=
  (es <=? startTime) && (startTime <? ee).

Definition ends_during (es ee endTime : Z) : bool :=
  (es <? endTime) && (endTime <=? ee).

Definition within (es ee startTime endTime : Z) : bool :=
  (startTime <=? es) && (ee <=? endTime).

Definition conflict_cases (es ee startTime endTime : Z) : bool :=
  starts_during es ee startTime
  || ends_during es ee endTime
  || within es ee startTime endTime.

Definition not_excluded (excludeAppointmentId : option string)
    (r : appointment) : bool :=
  match excludeAppointmentId with
  | Some x => if JS.truthy x then negb (id r =? x)%string else true
  | None => true
  end.

(** [db.raw(...)] in each of the three sub-conditions: the end of the
    existing appointment, as the query spells it. *)
Definition end_of_appointment : string :=
  "appointment_date + INTERVAL duration_minutes MINUTE".

(** The WHERE clause on one row, the fragment read as the end of the
    row's window. *)
Definition conflicting (doctorId : string) (startTime endTime : Z)
    (excludeAppointmentId : option string) (r : appointment) : bool :=
  (doctor_id r =? doctorId)%string
  && occupies (status r)
  && conflict_cases (window_start r) (window_end r) startTime endTime
  && not_excluded excludeAppointmentId r.

(** [await query]: the statement is parsed first. *)
Definition conflicts (tbl : list appointment) (doctorId : string)
    (appointmentDate durationMinutes : Z)
    (excludeAppointmentId : option string) : awaited (list appointment) :=
  let startTime := appointmentDate in
  let endTime := appointmentDate + minutes durationMinutes in
  if Postgres.parses end_of_appointment
  then Resolved
         (filter (conflicting doctorId startTime endTime excludeAppointmentId)
            tbl)
  else Rejected.

Definition checkAvailability (tbl : list appointment) (doctorId : string)
    (appointmentDate durationMinutes : Z)
    (excludeAppointmentId : option string) : awaited bool :=
  match conflicts tbl doctorId appointmentDate durationMinutes
          excludeAppointmentId with
  | Resolved rows => Resolved (List.length rows =? 0)%nat
  | Rejected => Rejected
  end.

(** The row an INSERT of [appointmentData] makes: [status] and
    [duration_minutes] take the column defaults, [uuid] is the value of
    [gen_random_uuid()]. *)
Definition new_row (uuid number creator : string) (c : clock)
    (d : appointment_data) : appointment :=
  {| id := uuid;
     appointment_number := number;
     patient_id := req_patient_id d;
     doctor_id := req_doctor_id d;
     created_by := creator;
     appointment_date := req_appointment_date d;
     duration_minutes :=
       match req_duration_minutes d with Some m => m | None => 30 end;
     type := req_type d;
     status := scheduled;
     chief_complaint := req_chief_complaint d;
     notes := req_notes d;
     preparation_instructions := req_preparation_instructions d;
     confirmed_at := None;
     started_at := None;
     completed_at := None;
     cancelled_at := None;
     cancellation_reason := None;
     cancelled_by := None;
     updated_at := now c |}.

(** INSERT under the primary key and the unique appointment number;
    [None] is the rejected statement (the driver throws). *)
Definition insert (tbl : list appointment) (r : appointment)
    : option (list appointment) :=
  if existsb (fun x => (id x =? id r)%string) tbl then None
  else if existsb (fun x => (appointment_number x =? appointment_number r)%string) tbl
  then None
  else Some (tbl ++ [r])%list.

Definition create (uuid creator : string) (c : clock)
    (tbl : list appointment) (d : appointment_data)
    : option (list appointment * appointment) :=
  let appointmentNumber := generateAppointmentNumber c tbl in
  let r := new_row uuid appointmentNumber creator c d in
  match insert tbl r with
  | Some tbl' => Some (tbl', r)
  | None => None
  end.

Definition keep {A : Type} (new old : option A) : option A :=
  match new with Some v => Some v | None => old end.

Definition pick {A : Type} (new : option A) (old : A) : A :=
  match new with Some v => v | None => old end.

(** [UPDATE ... SET ...updateData, updated_at = now] on one row. *)
Definition apply_update (c : clock) (u : update_data) (r : appointment)
    : appointment :=
  {| id := id r;
     appointment_number := appointment_number r;
     patient_id := patient_id r;
     doctor_id := doctor_id r;
     created_by := created_by r;
     appointment_date := pick (upd_appointment_date u) (appointment_date r);
     duration_minutes := pick (upd_duration_minutes u) (duration_minutes r);
     type := pick (upd_type u) (type r);
     status := pick (upd_status u) (status r);
     chief_complaint := keep (upd_chief_complaint u) (chief_complaint r);
     notes := keep (upd_notes u) (notes r);
     preparation_instructions :=
       keep (upd_preparation_instructions u) (preparation_instructions r);
     confirmed_at := keep (upd_confirmed_at u) (confirmed_at r);
     started_at := keep (upd_started_at u) (started_at r);
     completed_at := keep (upd_completed_at u) (completed_at r);
     cancelled_at := keep (upd_cancelled_at u) (cancelled_at r);
     cancellation_reason :=
       keep (upd_cancellation_reason u) (cancellation_reason r);
     cancelled_by := keep (upd_cancelled_by u) (cancelled_by r);
     updated_at := now c |}.

(** [UPDATE ... WHERE id = i]: every row of that key is rewritten. *)
Definition update_where (g : appointment -> appointment) (i : string)
    (tbl : list appointment) : list appointment :=
  map (fun r => if (id r =? i)%string then g r else r) tbl.

(** [update(id, data)]: the first returned row is the result. *)
Definition update (c : clock) (tbl : list appointment) (i : string)
    (u : update_data) : list appointment * option appointment :=
  let tbl' := update_where (apply_update c u) i tbl in
  (tbl', findById tbl' i).

End Appointment.

(* ================================================================== *)
(** ** controllers/appointmentController.js *)

Module AppointmentController.

(** [Patient.findById] and [User.findById]. *)
Definition patient_exists (ps : list string) (i : string) : bool :=
  existsb (fun p => (p =? i)%string) ps.

Definition find_user (us : list user) (i : string) : option user :=
  find (fun u => (user_id u =? i)%string) us.

(** [!doctor || doctor.role !== 'doctor' || doctor.status !== 'active'] *)
Definition doctor_unusable (d : option user) : bool :=
  match d with
  | None => true
  | Some u =>
      negb (user_role_eqb (role u) doctor)
      || negb (user_status_eqb (user_state u) active)
  end.

Definition with_appointments (db : database) (tbl : list appointment)
    : database :=
  {| patients := patients db; users := users db; appointments := tbl |}.

(** [uuid] is what [gen_random_uuid()] yields for the new row and
    [actor] is [req.user.id]. *)
Definition createAppointment (uuid actor : string) (c : clock)
    (db : database) (body : appointment_data) : database * response :=
  if negb (patient_exists (patients db) (req_patient_id body))
  then (db, Failure 404 "Patient not found")
  else if doctor_unusable (find_user (users db) (req_doctor_id body))
  then (db, Failure 404 "Doctor not found")
  else
    match Appointment.checkAvailability (appointments db)
            (req_doctor_id body) (req_appointment_date body)
            (JS.or_num (req_duration_minutes body) 30) None with
    | Rejected => (db, Failure 500 "Internal server error")
    | Resolved isAvailable =>
        if negb isAvailable
        then (db, Failure 409 "Time slot not available")
        else
          match Appointment.create uuid actor c (appointments db) body with
          | Some (tbl', r) =>
              (with_appointments db tbl', Success 201 (Some r))
          | None => (db, Failure 500 "Internal server error")
          end
    end.

(** [updateData.appointment_date || updateData.duration_minutes]: a date
    that is present is truthy, a duration is truthy unless it is 0. *)
Definition changes_time (u : update_data) : bool :=
  match upd_appointment_date u with
  | Some _ => true
  | None =>
      match upd_duration_minutes u with
      | Some d => negb (d =? 0)
      | None => false
      end
  end.

(** The [switch (updateData.status)] that stamps the timestamps. *)
Definition stamp (actor : string) (c : clock) (u : update_data)
    : update_data :=
  match upd_status u with
  | Some confirmed =>
      mkUpdateData (upd_appointment_date u) (upd_duration_minutes u)
        (upd_type u) (upd_status u) (upd_chief_complaint u) (upd_notes u)
        (upd_preparation_instructions u) (upd_cancellation_reason u)
        (Some (now c)) (upd_started_at u) (upd_completed_at u)
        (upd_cancelled_at u) (upd_cancelled_by u)
  | Some in_progress =>
      mkUpdateData (upd_appointment_date u) (upd_duration_minutes u)
        (upd_type u) (upd_status u) (upd_chief_complaint u) (upd_notes u)
        (upd_preparation_instructions u) (upd_cancellation_reason u)
        (upd_confirmed_at u) (Some (now c)) (upd_completed_at u)
        (upd_cancelled_at u) (upd_cancelled_by u)
  | Some completed =>
      mkUpdateData (upd_appointment_date u) (upd_duration_minutes u)
        (upd_type u) (upd_status u) (upd_chief_complaint u) (upd_notes u)
        (upd_preparation_instructions u) (upd_cancellation_reason u)
        (upd_confirmed_at u) (upd_started_at u) (Some (now c))
        (upd_cancelled_at u) (upd_cancelled_by u)
  | Some cancelled =>
      mkUpdateData (upd_appointment_date u) (upd_duration_minutes u)
        (upd_type u) (upd_status u) (upd_chief_complaint u) (upd_notes u)
        (upd_preparation_instructions u) (upd_cancellation_reason u)
        (upd_confirmed_at u) (upd_started_at u) (upd_completed_at u)
        (Some (now c)) (Some actor)
  | Some scheduled | Some no_show | None => u
  end.

Definition updateAppointment (actor : string) (c : clock) (db : database)
    (i : string) (updateData : update_data) : database * response :=
  match Appointment.findById (appointments db) i with
  | None => (db, Failure 404 "Appointment not found")
  | Some existingAppointment =>
      let isAvailable :=
        if changes_time updateData
        then
          let appointmentDate :=
            Appointment.pick (upd_appointment_date updateData)
              (appointment_date existingAppointment) in
          let duration :=
            JS.or_num (upd_duration_minutes updateData)
              (duration_minutes existingAppointment) in
          Appointment.checkAvailability (appointments db)
            (doctor_id existingAppointment) appointmentDate duration (Some i)
        else Resolved true in
      match isAvailable with
      | Rejected => (db, Failure 500 "Internal server error")
      | Resolved false => (db, Failure 409 "Time slot not available")
      | Resolved true =>
          let '(tbl', r) :=
            Appointment.update c (appointments db) i
              (stamp actor c updateData) in
          (with_appointments db tbl', Success 200 r)
      end
  end.

Definition cancellation (actor : string) (c : clock)
    (cancellation_reason : option string) : update_data :=
  mkUpdateData None None None (Some cancelled) None None None
    (Some (JS.or_str cancellation_reason "No reason provided"))
    None None None (Some (now c)) (Some actor).

(** The route has no [validateRequest]: the reason is whatever the
    client sent, and the UPDATE is rejected when it does not fit the
    column [cancellation_reason]. *)
Definition cancelAppointment (actor : string) (c : clock) (db : database)
    (i : string) (cancellation_reason : option string)
    : database * response :=
  match Appointment.findById (appointments db) i with
  | None => (db, Failure 404 "Appointment not found")
  | Some existingAppointment =>
      if status_eqb (status existingAppointment) cancelled
      then (db, Failure 400 "Appointment already cancelled")
      else
        let updateData := cancellation actor c cancellation_reason in
        if Postgres.fits_string
             (JS.or_str cancellation_reason "No reason provided")
        then
          let '(tbl', _) :=
            Appointment.update c (appointments db) i updateData in
          (with_appointments db tbl', Success 200 None)
        else (db, Failure 500 "Internal server error")
  end.

End AppointmentController.

(* ================================================================== *)
(** ** routes/appointments.js with the schemas of middleware/validation.js *)

Module Routes.

Definition at_most (n : nat) (s : option string) : bool :=
  match s with
  | Some v => (String.length v <=? n)%nat
  | None => true
  end.

Definition in_range (lo hi : Z) (x : option Z) : bool :=
  match x with
  | Some v => (lo <=? v) && (v <=? hi)
  | None => true
  end.

Definition not_before (t : Z) (x : option Z) : bool :=
  match x with
  | Some v => t <=? v
  | None => true
  end.

Definition absent {A : Type} (x : option A) : bool :=
  match x with Some _ => false | None => true end.

(** [appointmentSchema]: the date is not in the past, the duration is
    between 15 and 240 minutes.  (The uuid format of the two references
    is checked too; nothing below depends on it.) *)
Definition appointmentSchema (c : clock) (b : appointment_data) : bool :=
  (now c <=? req_appointment_date b)
  && in_range 15 240 (req_duration_minutes b)
  && at_most 200 (req_chief_complaint b).

(** [appointmentUpdateSchema]: keys outside the schema are refused, so
    none of the timestamp keys can come from the client. *)
Definition appointmentUpdateSchema (c : clock) (u : update_data) : bool :=
  not_before (now c) (upd_appointment_date u)
  && in_range 15 240 (upd_duration_minutes u)
  && at_most 200 (upd_chief_complaint u)
  && at_most 200 (upd_cancellation_reason u)
  && absent (upd_confirmed_at u) && absent (upd_started_at u)
  && absent (upd_completed_at u) && absent (upd_cancelled_at u)
  && absent (upd_cancelled_by u).

Inductive request :=
| PostAppointment (body : appointment_data)
| PutAppointment (i : string) (body : update_data)
| PostCancel (i : string) (cancellation_reason : option string).

(** What one request sees besides the database: the authenticated user,
    the clock, and the uuid the store would give a new row. *)
Record context := mkContext {
  actor : string;
  time : clock;
  uuid : string
}.

Definition validation_failed : response := Failure 400 "Validation failed".

Definition handle (db : database) (cr : context * request)
    : database * response :=
  let '(x, r) := cr in
  match r with
  | PostAppointment body =>
      if appointmentSchema (time x) body
      then AppointmentController.createAppointment
             (uuid x) (actor x) (time x) db body
      else (db, validation_failed)
  | PutAppointment i body =>
      if appointmentUpdateSchema (time x) body
      then AppointmentController.updateAppointment (actor x) (time x) db i body
      else (db, validation_failed)
  | PostCancel i reason =>
      AppointmentController.cancelAppointment (actor x) (time x) db i reason
  end.

(** Requests handled one after the other. *)
Fixpoint run (db : database) (l : list (context * request)) : database :=
  match l with
  | [] => db
  | cr :: l' => run (fst (handle db cr)) l'
  end.

End Routes.

(* ================================================================== *)
(** ** Two create requests in flight

    [createAppointment] is an async function: between two of its awaited
    queries the event loop may run another request.  A request in flight
    is the point it has reached; a schedule says whose awaited query the
    database answers next.  Each query is answered on the table as it is
    at that moment: the code opens no transaction and takes no lock. *)

Module InFlight.






End InFlight.

(* ================================================================== *)
(** ** The notions the specification speaks of *)

(** Two half-open windows [s1, e1) and [s2, e2) overlap. *)
Definition overlap (s1 e1 s2 e2 : Z) : Prop := s1 < e2 /\ s2 < e1.

(** The row is one the availability check is to respect: it belongs to
    the doctor, still occupies the calendar, and is not the one left out. *)
Definition counts_for (doctorId : string) (exclude : option string)
    (r : appointment) : Prop :=
  doctor_id r = doctorId
  /\ occupies (status r) = true
  /\ (forall x, exclude = Some x -> id r <> x).

(** *** Appointment numbers, in the words of the specification *)

Definition is_digit (c : ascii) : bool :=
  let n := Z.of_nat (nat_of_ascii c) in (48 <=? n) && (n <=? 57).

Fixpoint all_digits (s : string) : bool :=
  match s with
  | EmptyString => true
  | String c s' => is_digit c && all_digits s'
  end.

(** Exactly four decimal digits: what a zero-padded sequence looks like. *)
Definition four_digits (s : string) : bool :=
  (String.length s =? 4)%nat && all_digits s.

(** The integer a string of decimal digits denotes. *)
Fixpoint digits_value_from (acc : Z) (s : string) : Z :=
  match s with
  | EmptyString => acc
  | String c s' =>
      digits_value_from (acc * 10 + (Z.of_nat (nat_of_ascii c) - 48)) s'
  end.

Definition digits_value (s : string) : Z := digits_value_from 0 s.

(** What follows the scope prefix in a number of that scope. *)
Definition trailing (prefix s : string) : string :=
  substring (String.length prefix) (String.length s - String.length prefix) s.

(** The sequence of a number of the scope: its trailing digits as an
    integer. *)
Definition sequence_of (prefix s : string) : Z :=
  digits_value (trailing prefix s).

(** The number is the prefix followed by four digits. *)
Definition padded_number (prefix s : string) : Prop :=
  String.prefix prefix s = true /\ four_digits (trailing prefix s) = true.

(** The sequences of the numbers of a scope, and the greatest of them. *)
Definition sequences (prefix : string) (numbers : list string) : list Z :=
  map (sequence_of prefix) (filter (String.prefix prefix) numbers).

Definition greatest_sequence (prefix : string) (numbers : list string)
    : option Z :=
  match sequences prefix numbers with
  | [] => None
  | k :: l => Some (fold_right Z.max k l)
  end.

(** "Prefix, then the greatest existing sequence plus one, or one when
    there is none, zero-padded to four digits." *)
Definition specified_number (c : clock) (numbers : list string) : string :=
  let prefix := Appointment.number_prefix (fullYear c) (monthIndex c) in
  let n := match greatest_sequence prefix numbers with
           | Some m => m + 1
           | None => 1
           end in
  prefix ++ JS.padStart 4 "0"%char (JS.toString n).

(** Every number of the scope is the prefix followed by four digits: the
    shape of the numbers written while a month has at most 9999 of them. *)
Definition scope_padded (prefix : string) (numbers : list string) : Prop :=
  forall s, In s numbers -> String.prefix prefix s = true ->
    four_digits (trailing prefix s) = true.

(** The greatest sequence of the scope, 0 for an empty scope. *)
Definition last_sequence (prefix : string) (numbers : list string) : Z :=
  match greatest_sequence prefix numbers with
  | Some m => m
  | None => 0
  end.

(** A sequence written the way the generator writes it. *)
Definition pad4 (k : Z) : string := JS.padStart 4 "0"%char (JS.toString k).

(** [pad4] yields digits that denote [k], four of them up to 9999. *)
Definition pad4_sound (k : Z) : bool :=
  all_digits (pad4 k)
  && (digits_value (pad4 k) =? k)
  && ((9999 <? k) || four_digits (pad4 k)).

(** [n] generations in a row, each number stored before the next one is
    computed. *)
Fixpoint generate_in_a_row (c : clock) (n : nat) (numbers : list string)
    : list string :=
  match n with
  | O => []
  | S k =>
      let s := Appointment.number_after c numbers in
      s :: generate_in_a_row c k (numbers ++ [s])%list
  end.

(** The primary key of [appointments]. *)
Definition primary_key (tbl : list appointment) : Prop :=
  NoDup (map id tbl).

(** The invariant of the data model: for a given doctor, no two
    appointments in status scheduled, confirmed or in_progress have
    overlapping windows. *)
Definition no_double_booking (tbl : list appointment) : Prop :=
  forall a b, In a tbl -> In b tbl -> id a <> id b ->
    doctor_id a = doctor_id b ->
    occupies (status a) = true -> occupies (status b) = true ->
    ~ overlap (window_start a) (window_end a) (window_start b) (window_end b).

Definition store_invariant (db : database) : Prop :=
  primary_key (appointments db) /\ no_double_booking (appointments db).

(** An update that neither moves nor resizes the appointment and takes it
    from a status that frees the slot to one that occupies it. *)
Definition reactivates (db : database) (r : Routes.request) : bool :=
  match r with
  | Routes.PutAppointment i body =>
      negb (AppointmentController.changes_time body)
      && match Appointment.findById (appointments db) i, upd_status body with
         | Some x, Some s => negb (occupies (status x)) && occupies s
         | _, _ => false
         end
  | _ => false
  end.

Fixpoint no_reactivation (db : database)
    (l : list (Routes.context * Routes.request)) : bool :=
  match l with
  | [] => true
  | cr :: l' =>
      negb (reactivates db (snd cr))
      && no_reactivation (fst (Routes.handle db cr)) l'
  end.

(** Decidable forms of the invariants, to evaluate them on a given
    store. *)
Definition overlapb (s1 e1 s2 e2 : Z) : bool := (s1 <? e2) && (s2 <? e1).

Fixpoint distinctb (l : list string) : bool :=
  match l with
  | [] => true
  | s :: l' => negb (existsb (String.eqb s) l') && distinctb l'
  end.

Definition compatibleb (a b : appointment) : bool :=
  (id a =? id b)%string
  || negb (doctor_id a =? doctor_id b)%string
  || negb (occupies (status a))
  || negb (occupies (status b))
  || negb (overlapb (window_start a) (window_end a)
             (window_start b) (window_end b)).

Definition no_double_bookingb (tbl : list appointment) : bool :=
  forallb (fun a => forallb (compatibleb a) tbl) tbl.

Definition store_invariantb (db : database) : bool :=
  distinctb (map id (appointments db))
  && no_double_bookingb (appointments db).

(* ================================================================== *)
(** ** A small clinic to evaluate the operations on *)

Module Sample.

Definition patient1 : string := "7c9e6679-7425-40de-944b-e07fc1f90ae7".
Definition doctor1 : string := "16fd2706-8baf-433b-82eb-8c7fada847da".
Definition nurse1 : string := "886313e1-3b8a-5372-9b90-0c9aee199e5d".
Definition desk1 : string := "6ba7b810-9dad-11d1-80b4-00c04fd430c8".

Definition id1 : string := "a3bb189e-8bf9-3888-9912-ace4e6543002".
Definition id2 : string := "f47ac10b-58cc-4372-a567-0e02b2c3d479".
Definition id3 : string := "0b1c2d3e-4f50-4a6b-8c7d-9e0f1a2b3c4d".

(** 2024-03-01T09:00:00Z and that morning at 08:00. *)
Definition nine : Z := 1709283600000.
Definition eight : Z := 1709280000000.
Definition morning : clock := mkClock eight 2024 2.

Definition staff : list user :=
  [ mkUser doctor1 doctor active;
    mkUser nurse1 nurse active;
    mkUser desk1 receptionist active ].

Definition booking (i number : string) (date dur : Z)
    (s : appointment_status) : appointment :=
  {| id := i; appointment_number := number;
     patient_id := patient1; doctor_id := doctor1; created_by := desk1;
     appointment_date := date; duration_minutes := dur;
     type := consultation; status := s;
     chief_complaint := None; notes := None;
     preparation_instructions := None;
     confirmed_at := None; started_at := None; completed_at := None;
     cancelled_at := None; cancellation_reason := None;
     cancelled_by := None; updated_at := eight |}.

Definition clinic (tbl : list appointment) : database :=
  mkDatabase [patient1] staff tbl.

Definition at_desk (u : string) : Routes.context :=
  Routes.mkContext desk1 morning u.

Definition request_for (date : Z) (dur : option Z) : appointment_data :=
  mkAppointmentData patient1 doctor1 date dur consultation None None None.


Definition set_status (s : appointment_status) : update_data :=
  mkUpdateData None None None (Some s) None None None None
    None None None None None.

Definition move_to (date : Z) : update_data :=
  mkUpdateData (Some date) None None None None None None None
    None None None None None.

End Sample.

(* ================================================================== *)
(** ** The rest of the appointment code

    The queries of models/Appointment.js that only read, its [delete],
    the listing of the controller, the role check of middleware/auth.js,
    and the two neighbours of the booking in the model files:
    [Patient.generatePatientNumber] and [User.getDoctors]. *)

(** *** moment, in a zone at a fixed offset from UTC

    [utcOffset] is the offset of the server's zone in milliseconds; clock
    changes of the zone are not modelled. *)

Module Moment.

Definition day : Z := 86400000.

(** [moment(t).startOf('day')] and [.endOf('day')]. *)
Definition startOfDay (utcOffset t : Z) : Z := t - (t + utcOffset) mod day.
Definition endOfDay (utcOffset t : Z) : Z := startOfDay utcOffset t + day - 1.

(** The day of the week of [t], Sunday being 0: the first of January 1970
    was a Thursday. *)
Definition weekday (utcOffset t : Z) : Z := ((t + utcOffset) / day + 4) mod 7.

(** [startOf('week')] and [endOf('week')] in the default locale, whose
    week starts on Sunday. *)
Definition startOfWeek (utcOffset t : Z) : Z :=
  startOfDay utcOffset t - weekday utcOffset t * day.
Definition endOfWeek (utcOffset t : Z) : Z :=
  startOfWeek utcOffset t + 7 * day - 1.

End Moment.

(** *** [Array.prototype.slice] on integers *)

Module JSArray.

(** The index a relative bound denotes in an array of [len] elements. *)
Definition clamp (len k : Z) : Z :=
  if k <? 0 then Z.max (len + k) 0 else Z.min k len.

Definition slice {A : Type} (l : list A) (first last : Z) : list A :=
  let len := Z.of_nat (List.length l) in
  let k := clamp len first in
  let final := clamp len last in
  firstn (Z.to_nat (final - k)) (skipn (Z.to_nat k) l).

End JSArray.

(** *** models/Appointment.js: the queries *)

Module AppointmentQueries.

(** [ORDER BY appointment_date ASC].  The store is free in the order of
    rows of one date; here they keep the order of the table, and no
    property below depends on that choice. *)
Fixpoint insert_by_date (r : appointment) (l : list appointment)
    : list appointment :=
  match l with
  | [] => [r]
  | x :: l' =>
      if appointment_date r <=? appointment_date x
      then r :: x :: l'
      else x :: insert_by_date r l'
  end.

Fixpoint orderBy_appointment_date (l : list appointment) : list appointment :=
  match l with
  | [] => []
  | r :: l' => insert_by_date r (orderBy_appointment_date l')
  end.

(** The object [filters] of [findAll]. *)
Record filters := mkFilters {
  f_status : option appointment_status;
  f_doctor_id : option string;
  f_patient_id : option string;
  f_date : option Z;
  f_date_range : option (Z * Z)
}.

Definition no_filter : filters := mkFilters None None None None None.

(** [if (filters.x) query = query.where('x', filters.x)] on a string. *)
Definition where_string (f : option string) (v : string) : bool :=
  match f with
  | Some s => if JS.truthy s then (v =? s)%string else true
  | None => true
  end.

Definition where_status (f : option appointment_status)
    (v : appointment_status) : bool :=
  match f with
  | Some s => status_eqb v s
  | None => true
  end.

(** [whereBetween(column, [lo, hi])]: both ends included. *)
Definition between (lo hi v : Z) : bool := (lo <=? v) && (v <=? hi).

Definition where_date (utcOffset : Z) (f : option Z) (v : Z) : bool :=
  match f with
  | Some d =>
      between (Moment.startOfDay utcOffset d) (Moment.endOfDay utcOffset d) v
  | None => true
  end.

Definition where_date_range (f : option (Z * Z)) (v : Z) : bool :=
  match f with
  | Some (lo, hi) => between lo hi v
  | None => true
  end.

Definition matches (utcOffset : Z) (f : filters) (r : appointment) : bool :=
  where_status (f_status f) (status r)
  && where_string (f_doctor_id f) (doctor_id r)
  && where_string (f_patient_id f) (patient_id r)
  && where_date utcOffset (f_date f) (appointment_date r)
  && where_date_range (f_date_range f) (appointment_date r).

Definition findAll (utcOffset : Z) (tbl : list appointment) (f : filters)
    : list appointment :=
  orderBy_appointment_date (filter (matches utcOffset f) tbl).

(** [delete(id)]: the rows left and the number of rows deleted. *)
Definition delete (tbl : list appointment) (i : string)
    : list appointment * nat :=
  (filter (fun r => negb (id r =? i)%string) tbl,
   List.length (filter (fun r => (id r =? i)%string) tbl)).

Definition getDoctorSchedule (utcOffset : Z) (tbl : list appointment)
    (doctorId : string) (date : Z) : list appointment :=
  orderBy_appointment_date
    (filter (fun r =>
               (doctor_id r =? doctorId)%string
               && between (Moment.startOfDay utcOffset date)
                    (Moment.endOfDay utcOffset date) (appointment_date r)
               && occupies (status r))
            tbl).

Definition upcoming (s : appointment_status) : bool :=
  match s with
  | scheduled | confirmed => true
  | _ => false
  end.

(** [limit] is a limit the store accepts: a natural number. *)
Definition getUpcomingAppointments (c : clock) (tbl : list appointment)
    (limit : nat) : list appointment :=
  firstn limit
    (orderBy_appointment_date
       (filter (fun r => (now c <=? appointment_date r) && upcoming (status r))
               tbl)).

Record stats := mkStats {
  total_appointments : nat;
  today_appointments : nat;
  week_appointments : nat;
  scheduled_appointments : nat;
  completed_appointments : nat;
  cancelled_appointments : nat
}.

(** [COUNT(CASE WHEN p THEN 1 END)] *)
Definition count_when (p : appointment -> bool) (tbl : list appointment)
    : nat :=
  List.length (filter p tbl).

Definition getAppointmentStats (utcOffset : Z) (c : clock)
    (tbl : list appointment) : stats :=
  let today := Moment.startOfDay utcOffset (now c) in
  let tomorrow := Moment.startOfDay utcOffset (now c + Moment.day) in
  let weekStart := Moment.startOfWeek utcOffset (now c) in
  let weekEnd := Moment.endOfWeek utcOffset (now c) in
  {| total_appointments := List.length tbl;
     today_appointments :=
       count_when (fun r => (today <=? appointment_date r)
                            && (appointment_date r <? tomorrow)) tbl;
     week_appointments :=
       count_when (fun r => between weekStart weekEnd (appointment_date r)) tbl;
     scheduled_appointments :=
       count_when (fun r => status_eqb (status r) scheduled) tbl;
     completed_appointments :=
       count_when (fun r => status_eqb (status r) completed) tbl;
     cancelled_appointments :=
       count_when (fun r => status_eqb (status r) cancelled) tbl |}.

End AppointmentQueries.

(** *** controllers/appointmentController.js: the listing *)

Module AppointmentListing.

(** [req.query] of GET /appointments; [page] and [limit] are the
    integers the query strings denote. *)
Record query := mkQuery {
  q_status : option appointment_status;
  q_doctor_id : option string;
  q_patient_id : option string;
  q_date : option Z;
  q_start_date : option Z;
  q_end_date : option Z;
  q_page : option Z;
  q_limit : option Z
}.

Record listing := mkListing {
  data : list appointment;
  page : Z;
  limit : Z;
  total : nat;
  totalPages : option Z           (* [None]: not a finite number *)
}.

(** [if (x) filters.x = x] on a string of the query. *)
Definition given (x : option string) : option string :=
  match x with
  | Some s => if JS.truthy s then Some s else None
  | None => None
  end.

Definition filters_of (q : query) : AppointmentQueries.filters :=
  AppointmentQueries.mkFilters (q_status q) (given (q_doctor_id q))
    (given (q_patient_id q)) (q_date q)
    (match q_start_date q, q_end_date q with
     | Some lo, Some hi => Some (lo, hi)
     | _, _ => None
     end).

(** [Math.ceil(n / limit)]; a division by 0 gives no finite number. *)
Definition ceil_div (n limit : Z) : option Z :=
  if limit =? 0 then None else Some (- ((- n) / limit)).

Definition getAllAppointments (utcOffset : Z) (tbl : list appointment)
    (q : query) : listing :=
  let page := Appointment.pick (q_page q) 1 in
  let limit := Appointment.pick (q_limit q) 20 in
  let appointments :=
    AppointmentQueries.findAll utcOffset tbl (filters_of q) in
  let offset := (page - 1) * limit in
  {| data := JSArray.slice appointments offset (offset + limit);
     page := page;
     limit := limit;
     total := List.length appointments;
     totalPages := ceil_div (Z.of_nat (List.length appointments)) limit |}.

(** The same query for another page. *)
Definition at_page (q : query) (p l : Z) : query :=
  mkQuery (q_status q) (q_doctor_id q) (q_patient_id q) (q_date q)
    (q_start_date q) (q_end_date q) (Some p) (Some l).

(** [getAppointmentById] *)
Definition getAppointmentById (tbl : list appointment) (i : string)
    : response :=
  match Appointment.findById tbl i with
  | Some r => Success 200 (Some r)
  | None => Failure 404 "Appointment not found"
  end.

End AppointmentListing.

(** *** middleware/auth.js: [requireRole], and the roles of the routes *)

Module Access.

Definition includes (roles : list user_role) (r : user_role) : bool :=
  existsb (user_role_eqb r) roles.

(** [None] stands for [next()]. *)
Definition requireRole (roles : list user_role) (reqUser : option user)
    : option response :=
  match reqUser with
  | None => Some (Failure 401 "Authentication required")
  | Some u =>
      if includes roles (role u) then None
      else Some (Failure 403 "Insufficient permissions")
  end.

(** The routes of routes/appointments.js. *)
Inductive route :=
| ListAll | Upcoming | Stats | Schedule | GetOne | Create | Update | Cancel.

Definition roles_of (r : route) : list user_role :=
  match r with
  | Stats => [admin; doctor]
  | _ => [admin; doctor; nurse; receptionist]
  end.

End Access.

(** *** models/Patient.js: the patient number *)

Module Patient.

Definition number_prefix (year : Z) : string := "P" ++ JS.toString year.

(** [generatePatientNumber], from the patient numbers the query sees. *)
Definition generatePatientNumber (c : clock) (numbers : list string)
    : string :=
  let prefix := number_prefix (fullYear c) in
  let nextNumber :=
    match Appointment.greatest (filter (String.prefix prefix) numbers) with
    | Some lastPatient =>
        JS.succ (JS.parseInt (JS.remove_first prefix lastPatient))
    | None => Some 1
    end in
  prefix ++ JS.padStart 6 "0"%char (JS.numToString nextNumber).

End Patient.

(** *** models/User.js: the doctors one can book *)

Module User.

(** A row of [users] with the columns [getDoctors] selects. *)
Record staff_member := mkStaff {
  account : user;
  first_name : string;
  last_name : string;
  specialization : option string;
  email : string
}.

(** [ORDER BY last_name]; the bytes of the names are compared. *)
Fixpoint insert_by_name (m : staff_member) (l : list staff_member)
    : list staff_member :=
  match l with
  | [] => [m]
  | x :: l' =>
      if (last_name m <=? last_name x)%string
      then m :: x :: l'
      else x :: insert_by_name m l'
  end.

Fixpoint orderBy_last_name (l : list staff_member) : list staff_member :=
  match l with
  | [] => []
  | m :: l' => insert_by_name m (orderBy_last_name l')
  end.

Definition getDoctors (tbl : list staff_member) : list staff_member :=
  orderBy_last_name
    (filter (fun m => user_role_eqb (role (account m)) doctor
                      && user_status_eqb (user_state (account m)) active)
            tbl).

End User.

(** *** Notions for the properties of the rest *)

(** Ascending appointment dates. *)
Definition by_date (a b : appointment) : Prop :=
  appointment_date a <= appointment_date b.

(** Ascending last names, as the bytes compare. *)
Definition by_last_name (a b : User.staff_member) : Prop :=
  (User.last_name a <=? User.last_name b)%string = true.

(** What identifies an appointment and whom it concerns. *)
Definition identity (r : appointment)
    : string * string * string * string * string :=
  (id r, appointment_number r, patient_id r, doctor_id r, created_by r).

(** Where an appointment stands: its identity, its date and its
    duration. *)
Definition placement (r : appointment)
    : string * string * string * string * string * Z * Z :=
  (identity r, appointment_date r, duration_minutes r).

(** The unique constraints of the table. *)
Definition unique_keys (tbl : list appointment) : Prop :=
  NoDup (map id tbl) /\ NoDup (map appointment_number tbl).

(** Rows as the routes write them: a key that is not empty and a
    duration within the bounds of the schemas. *)
Definition as_validated (tbl : list appointment) : Prop :=
  Forall (fun r => id r <> "" /\ 15 <= duration_minutes r <= 240) tbl.

(** Every request of the sequence is handled with a uuid for its new
    row. *)
Definition with_uuids (l : list (Routes.context * Routes.request)) : Prop :=
  Forall (fun cr => Routes.uuid (fst cr) <> "") l.

(** Exactly [w] decimal digits. *)
Definition digits_of_width (w : nat) (s : string) : bool :=
  (String.length s =? w)%nat && all_digits s.

(** Every number of the scope is the prefix followed by [w] digits. *)
Definition scope_of_width (w : nat) (prefix : string)
    (numbers : list string) : Prop :=
  forall s, In s numbers -> String.prefix prefix s = true ->
    digits_of_width w (trailing prefix s) = true.

(* ================================================================== *)
(** * Properties *)

Section Windows.

Lemma overlap_conflict_cases es ee s e :
  overlap es ee s e -> Appointment.conflict_cases es ee s e = true.
Proof.
  unfold overlap, Appointment.conflict_cases, Appointment.starts_during,
    Appointment.ends_during, Appointment.within.
  intros [H1 H2].
  destruct (Z.leb_spec es s), (Z.ltb_spec s ee), (Z.ltb_spec es e),
    (Z.leb_spec e ee), (Z.leb_spec s es), (Z.leb_spec ee e);
    simpl; try reflexivity; lia.
Qed.

Lemma conflict_cases_overlap es ee s e :
  es < ee -> s < e ->
  Appointment.conflict_cases es ee s e = true -> overlap es ee s e.
Proof.
  unfold overlap, Appointment.conflict_cases, Appointment.starts_during,
    Appointment.ends_during, Appointment.within.
  intros Hx Hc.
  destruct (Z.leb_spec es s), (Z.ltb_spec s ee), (Z.ltb_spec es e),
    (Z.leb_spec e ee), (Z.leb_spec s es), (Z.leb_spec ee e);
    simpl; intros Hq; try discriminate Hq; lia.
Qed.

Lemma minutes_pos d : 0 < d -> 0 < minutes d.
Proof. unfold minutes. lia. Qed.

End Windows.

(** C3: for two windows with positive durations, the three OR'd
    sub-conditions of the conflict query (the row starts at or before the
    candidate start and ends after it; the row starts before the candidate
    end and ends at or after it; the row lies within the candidate) hold
    exactly when the half-open windows overlap, [s1 < e2 /\ s2 < e1];
    boundary instants included. *)
Theorem conflict_cases_iff_overlap (es de s d : Z) :
  0 < de -> 0 < d ->
  Appointment.conflict_cases es (es + minutes de) s (s + minutes d) = true
  <-> overlap es (es + minutes de) s (s + minutes d).
Proof.
  intros Hde Hd. apply minutes_pos in Hde. apply minutes_pos in Hd. split.
  - apply conflict_cases_overlap; lia.
  - apply overlap_conflict_cases.
Qed.

Lemma conflict_cases_iff_overlap_witness :
  0 < 30 /\ 0 < 30
  /\ (Appointment.conflict_cases 0 (0 + minutes 30) 900000 (900000 + minutes 30) = true
      <-> overlap 0 (0 + minutes 30) 900000 (900000 + minutes 30)).
Proof.
  split; [lia|]. split; [lia|].
  apply (conflict_cases_iff_overlap 0 30 900000 30); lia.
Defined.

Section Availability.

Lemma filter_nil_iff {A : Type} (f : A -> bool) (l : list A) :
  filter f l = [] <-> forall x, In x l -> f x = false.
Proof.
  induction l as [|a l IH]; simpl.
  - split; [intros _ x []|reflexivity].
  - destruct (f a) eqn:Ha.
    + split; [discriminate|]. intros H.
      rewrite (H a (or_introl eq_refl)) in Ha. discriminate.
    + rewrite IH. split.
      * intros H x [<-|Hx]; auto.
      * intros H x Hx. apply H. now right.
Qed.

Lemma truthy_true s : JS.truthy s = true <-> s <> "".
Proof.
  unfold JS.truthy. destruct (String.eqb_spec s ""); simpl; split;
    congruence.
Qed.

Lemma not_excluded_iff exclude r :
  id r <> "" ->
  Appointment.not_excluded exclude r = true
  <-> (forall x, exclude = Some x -> id r <> x).
Proof.
  intros Hid. unfold Appointment.not_excluded.
  destruct exclude as [x|].
  - destruct (JS.truthy x) eqn:Hx.
    + destruct (String.eqb_spec (id r) x) as [E|E]; simpl; split.
      * discriminate.
      * intros H. exfalso. exact (H x eq_refl E).
      * intros _ y [= <-]. exact E.
      * reflexivity.
    + split; [|reflexivity]. intros _ y [= <-].
      assert (x = "") as ->; [|exact Hid].
      destruct (String.eqb_spec x "") as [E|E]; [exact E|].
      apply truthy_true in E. congruence.
  - split; [discriminate|reflexivity].
Qed.

(** The WHERE clause of the conflict query is the half-open test on the
    rows that count: what the query is written to select. *)
Lemma conflicting_iff doctorId date dur exclude r :
  id r <> "" -> 0 < duration_minutes r -> 0 < dur ->
  Appointment.conflicting doctorId date (date + minutes dur) exclude r = true
  <-> counts_for doctorId exclude r
      /\ overlap (window_start r) (window_end r) date (date + minutes dur).
Proof.
  intros Hid Hr Hdur. apply minutes_pos in Hr. apply minutes_pos in Hdur.
  unfold Appointment.conflicting, counts_for.
  rewrite !andb_true_iff, (not_excluded_iff exclude r Hid), String.eqb_eq.
  split.
  - intros [[[H1 H2] H3] H4]. repeat split; auto;
      apply conflict_cases_overlap in H3;
      unfold window_start, window_end in *; unfold overlap in *; lia.
  - intros [(H1 & H2 & H3) H4]. repeat split; auto.
    now apply overlap_conflict_cases.
Qed.

(** The store does not parse the end of an appointment as the query
    spells it. *)
Lemma end_of_appointment_refused :
  Postgres.parses Appointment.end_of_appointment = false.
Proof. reflexivity. Qed.

Lemma conflicts_rejected tbl doctorId date dur exclude :
  Appointment.conflicts tbl doctorId date dur exclude = Rejected.
Proof.
  unfold Appointment.conflicts. now rewrite end_of_appointment_refused.
Qed.

Lemma availability_rejected tbl doctorId date dur exclude :
  Appointment.checkAvailability tbl doctorId date dur exclude = Rejected.
Proof.
  unfold Appointment.checkAvailability. now rewrite conflicts_rejected.
Qed.

End Availability.

(** C1: [checkAvailability] never answers.  Its query spells the end of
    an existing appointment [appointment_date + INTERVAL duration_minutes
    MINUTE]; the store refuses that when it parses the statement, so for
    every table, doctor, window and excluded id the awaited query rejects
    and the call returns neither true nor false.  That includes the
    windows the half-open test leaves free: the request for 09:30 after
    an appointment from 09:00 to 09:30 is not answered true, and neither
    is a request on an empty table. *)
Theorem checkAvailability_is_rejected
    (tbl : list appointment) (doctorId : string) (date dur : Z)
    (exclude : option string) :
  Appointment.checkAvailability tbl doctorId date dur exclude = Rejected
  /\ Appointment.checkAvailability
       [ Sample.booking Sample.id1 "A2024030001" Sample.nine 30 scheduled ]
       Sample.doctor1 (Sample.nine + 1800000) 30 None
     <> Resolved true
  /\ Appointment.checkAvailability [] doctorId date dur exclude
     <> Resolved true.
Proof.
  rewrite !availability_rejected. repeat split; discriminate.
Qed.

Section Invariant.

Lemma overlap_sym s1 e1 s2 e2 : overlap s1 e1 s2 e2 -> overlap s2 e2 s1 e1.
Proof. unfold overlap. tauto. Qed.

Lemma findById_In tbl i x :
  Appointment.findById tbl i = Some x -> In x tbl /\ id x = i.
Proof.
  unfold Appointment.findById. intros H. apply find_some in H.
  now rewrite String.eqb_eq in H.
Qed.

Lemma primary_key_unique tbl a b :
  primary_key tbl -> In a tbl -> In b tbl -> id a = id b -> a = b.
Proof.
  unfold primary_key. induction tbl as [|r tbl IH]; simpl; [intros _ []|].
  intros Hnd [<-|Ha] [<-|Hb] E; inversion Hnd as [|? ? Hnot Hnd']; subst.
  - reflexivity.
  - exfalso. apply Hnot. rewrite E. now apply in_map.
  - exfalso. apply Hnot. rewrite <- E. now apply in_map.
  - now apply IH.
Qed.

Lemma update_where_ids g i tbl :
  (forall r, id (g r) = id r) ->
  map id (Appointment.update_where g i tbl) = map id tbl.
Proof.
  intros Hg. unfold Appointment.update_where. rewrite map_map. apply map_ext.
  intros r. destruct (id r =? i)%string; [apply Hg|reflexivity].
Qed.

Lemma in_update_where g i tbl a :
  In a (Appointment.update_where g i tbl) ->
  (In a tbl /\ id a <> i) \/ (exists a0, In a0 tbl /\ id a0 = i /\ a = g a0).
Proof.
  unfold Appointment.update_where. rewrite in_map_iff. intros (a0 & E & Ha0).
  destruct (String.eqb_spec (id a0) i) as [Ei|Ei]; subst a.
  - right. now exists a0.
  - left. now split.
Qed.

(** Rewriting the row [x] of key [i] keeps the invariant when the new
    row, if it occupies the calendar, overlaps no other counting row. *)
Lemma update_where_invariant g i tbl x :
  (forall r, id (g r) = id r) ->
  (forall r, doctor_id (g r) = doctor_id r) ->
  primary_key tbl -> no_double_booking tbl ->
  Appointment.findById tbl i = Some x ->
  (occupies (status (g x)) = true ->
   forall b, In b tbl -> id b <> i -> doctor_id b = doctor_id x ->
     occupies (status b) = true ->
     ~ overlap (window_start b) (window_end b)
         (window_start (g x)) (window_end (g x))) ->
  primary_key (Appointment.update_where g i tbl) /\ no_double_booking (Appointment.update_where g i tbl).
Proof.
  intros Hid Hdoc Hpk Hinv Hfind Hnew.
  destruct (findById_In _ _ _ Hfind) as [Hx Hxi].
  split; [unfold primary_key; now rewrite update_where_ids|].
  intros a b Ha Hb Hab Hd Hoa Hob.
  apply in_update_where in Ha. apply in_update_where in Hb.
  destruct Ha as [[Ha Hai]|(a0 & Ha0 & Ha0i & ->)];
    destruct Hb as [[Hb Hbi]|(b0 & Hb0 & Hb0i & ->)].
  - now apply Hinv.
  - assert (b0 = x) as -> by (apply (primary_key_unique tbl); congruence).
    rewrite Hdoc in Hd. now apply Hnew.
  - assert (a0 = x) as -> by (apply (primary_key_unique tbl); congruence).
    rewrite Hdoc in Hd. intros Hov. apply overlap_sym in Hov. revert Hov.
    apply Hnew; auto.
  - exfalso. apply Hab. rewrite !Hid. congruence.
Qed.

End Invariant.

Section Preservation.

Import AppointmentController.

Lemma insert_Some tbl r tbl' :
  Appointment.insert tbl r = Some tbl' ->
  tbl' = (tbl ++ [r])%list /\ ~ In (id r) (map id tbl).
Proof.
  unfold Appointment.insert.
  destruct (existsb (fun x => (id x =? id r)%string) tbl) eqn:E1;
    [discriminate|].
  destruct (existsb
              (fun x => (appointment_number x =? appointment_number r)%string)
              tbl);
    [discriminate|].
  intros [= E]. subst tbl'. split; [reflexivity|].
  rewrite in_map_iff. intros (x & Hx & Hin).
  assert (existsb (fun x => (id x =? id r)%string) tbl = true) as E2.
  { apply existsb_exists. exists x. split; [exact Hin|].
    now apply String.eqb_eq. }
  congruence.
Qed.

Lemma createAppointment_preserves uuid actor c db body :
  store_invariant db ->
  store_invariant (fst (createAppointment uuid actor c db body)).
Proof.
  intros Hinv. unfold createAppointment.
  destruct (negb (patient_exists _ _)); [exact Hinv|].
  destruct (doctor_unusable _); [exact Hinv|].
  rewrite availability_rejected. exact Hinv.
Qed.

Lemma update_table c tbl i u :
  fst (Appointment.update c tbl i u)
  = Appointment.update_where (Appointment.apply_update c u) i tbl.
Proof. reflexivity. Qed.

Lemma cancelAppointment_preserves actor c db i reason :
  store_invariant db ->
  store_invariant (fst (cancelAppointment actor c db i reason)).
Proof.
  intros [Hpk Hinv]. unfold cancelAppointment.
  destruct (Appointment.findById (appointments db) i) as [x|] eqn:Hx;
    [|now split].
  destruct (status_eqb (status x) cancelled); [now split|].
  destruct (Postgres.fits_string _); [|now split].
  destruct (Appointment.update _ _ _ _) as [tbl' r] eqn:Hup.
  apply (f_equal fst) in Hup. rewrite update_table in Hup. simpl in Hup.
  subst tbl'. simpl.
  apply (update_where_invariant _ _ _ x); auto.
  simpl. discriminate.
Qed.

End Preservation.

Section PreservationUpdate.

Import AppointmentController.

Lemma stamp_fields actor c u :
  upd_appointment_date (stamp actor c u) = upd_appointment_date u
  /\ upd_duration_minutes (stamp actor c u) = upd_duration_minutes u
  /\ upd_status (stamp actor c u) = upd_status u.
Proof.
  unfold stamp. destruct (upd_status u) as [[]|] eqn:E; simpl; auto.
Qed.

Lemma updated_window actor c u x :
  window_start (Appointment.apply_update c (stamp actor c u) x)
  = Appointment.pick (upd_appointment_date u) (appointment_date x)
  /\ window_end (Appointment.apply_update c (stamp actor c u) x)
     = Appointment.pick (upd_appointment_date u) (appointment_date x)
       + minutes (Appointment.pick (upd_duration_minutes u) (duration_minutes x))
  /\ status (Appointment.apply_update c (stamp actor c u) x)
     = Appointment.pick (upd_status u) (status x).
Proof.
  destruct (stamp_fields actor c u) as (E1 & E2 & E3).
  unfold window_start, window_end. simpl. now rewrite E1, E2, E3.
Qed.

Lemma updateAppointment_preserves actor c db i u :
  Routes.appointmentUpdateSchema c u = true ->
  reactivates db (Routes.PutAppointment i u) = false ->
  store_invariant db ->
  store_invariant (fst (updateAppointment actor c db i u)).
Proof.
  intros Hval Hre [Hpk Hinv]. unfold updateAppointment.
  destruct (Appointment.findById (appointments db) i) as [x|] eqn:Hx;
    [|now split].
  assert (Hrange : Routes.in_range 15 240 (upd_duration_minutes u) = true).
  { unfold Routes.appointmentUpdateSchema in Hval.
    rewrite !andb_true_iff in Hval. tauto. }
  destruct (findById_In _ _ _ Hx) as [Hxin Hxi].
  destruct (updated_window actor c u x) as (Ws & We & Wst).
  destruct (changes_time u) eqn:Hct.
  - rewrite availability_rejected. now split.
  - destruct (Appointment.update _ _ _ _) as [tbl' r] eqn:Hup.
    apply (f_equal fst) in Hup. rewrite update_table in Hup. simpl in Hup.
    subst tbl'. simpl.
    apply (update_where_invariant _ _ _ x); auto.
    intros Hnew b Hb Hbi Hd Hocc. rewrite Ws, We.
    assert (upd_appointment_date u = None /\ upd_duration_minutes u = None)
      as [-> ->].
    { unfold changes_time in Hct. unfold Routes.in_range in Hrange.
      destruct (upd_appointment_date u); [discriminate|].
      destruct (upd_duration_minutes u) as [d|]; [|now split].
      rewrite andb_true_iff, !Z.leb_le in Hrange.
      destruct (Z.eqb_spec d 0); [lia|discriminate]. }
    simpl. apply Hinv; auto; [congruence|].
    rewrite Wst in Hnew. simpl in Hre. rewrite Hct, Hx in Hre. simpl in Hre.
    destruct (upd_status u) as [s|]; simpl in *; [|exact Hnew].
    rewrite Hnew, andb_true_r in Hre.
    now apply negb_false_iff in Hre.
Qed.

Lemma handle_preserves db x r :
  reactivates db r = false ->
  store_invariant db -> store_invariant (fst (Routes.handle db (x, r))).
Proof.
  intros Hre Hinv. unfold Routes.handle. destruct r as [body|i body|i reason].
  - destruct (Routes.appointmentSchema _ _) eqn:Hv; [|exact Hinv].
    now apply createAppointment_preserves.
  - destruct (Routes.appointmentUpdateSchema _ _) eqn:Hv; [|exact Hinv].
    now apply updateAppointment_preserves.
  - now apply cancelAppointment_preserves.
Qed.

End PreservationUpdate.

(** C2, as the code has it: from a store whose rows have distinct keys and
    in which no doctor has two overlapping appointments in status
    scheduled, confirmed or in_progress, every sequence of create, update
    and cancel requests keeps both, as long as no update that leaves date
    and duration alone takes an appointment from completed, cancelled or
    no_show back to a status that occupies the calendar. *)
Theorem run_preserves_no_double_booking
    (db : database) (l : list (Routes.context * Routes.request)) :
  store_invariant db -> no_reactivation db l = true ->
  store_invariant (Routes.run db l).
Proof.
  revert db. induction l as [|[x r] l IH]; intros db Hinv Hre; simpl in *.
  - exact Hinv.
  - apply andb_true_iff in Hre. destruct Hre as [H1 H2].
    apply negb_true_iff in H1. apply IH; [|exact H2].
    now apply handle_preserves.
Qed.

Section Deciding.

Lemma overlapb_spec s1 e1 s2 e2 :
  overlapb s1 e1 s2 e2 = true <-> overlap s1 e1 s2 e2.
Proof.
  unfold overlapb, overlap. now rewrite andb_true_iff, !Z.ltb_lt.
Qed.

Lemma distinctb_spec l : distinctb l = true <-> NoDup l.
Proof.
  induction l as [|s l IH]; simpl.
  - split; [constructor|reflexivity].
  - rewrite andb_true_iff, negb_true_iff, IH. split.
    + intros [Hs Hl]. constructor; [|exact Hl]. intros Hin.
      assert (existsb (String.eqb s) l = true) as E; [|congruence].
      apply existsb_exists. exists s. split; [exact Hin|apply String.eqb_refl].
    + intros H. inversion H as [|? ? Hnot Hl]; subst. split; [|exact Hl].
      apply not_true_is_false. intros E. apply existsb_exists in E.
      destruct E as (y & Hy & E). apply String.eqb_eq in E. now subst y.
Qed.

Lemma compatibleb_spec a b :
  compatibleb a b = true <->
  (id a <> id b -> doctor_id a = doctor_id b ->
   occupies (status a) = true -> occupies (status b) = true ->
   ~ overlap (window_start a) (window_end a) (window_start b) (window_end b)).
Proof.
  unfold compatibleb. rewrite <- overlapb_spec.
  destruct (String.eqb_spec (id a) (id b)),
    (String.eqb_spec (doctor_id a) (doctor_id b)),
    (occupies (status a)), (occupies (status b)),
    (overlapb (window_start a) (window_end a) (window_start b) (window_end b));
    simpl; split; try reflexivity; try congruence; try tauto;
    intros H; exfalso; apply H; auto.
Qed.

Lemma no_double_bookingb_spec tbl :
  no_double_bookingb tbl = true <-> no_double_booking tbl.
Proof.
  unfold no_double_bookingb, no_double_booking.
  rewrite forallb_forall. split.
  - intros H a b Ha Hb. specialize (H a Ha). rewrite forallb_forall in H.
    apply compatibleb_spec. now apply H.
  - intros H a Ha. apply forallb_forall. intros b Hb.
    apply compatibleb_spec. now apply H.
Qed.

Lemma store_invariantb_spec db :
  store_invariantb db = true <-> store_invariant db.
Proof.
  unfold store_invariantb, store_invariant, primary_key.
  now rewrite andb_true_iff, distinctb_spec, no_double_bookingb_spec.
Qed.

End Deciding.

(** The request that breaks C2 as it is worded.  The doctor has a
    cancelled appointment at 09:00 and a scheduled one in the same slot,
    which the invariant allows.  A status-only update sets the cancelled
    one back to scheduled: no availability check runs for it, and the
    doctor holds two scheduled appointments at 09:00. *)
Lemma reactivation_breaks_no_double_booking :
  let db :=
    Sample.clinic
      [ Sample.booking Sample.id1 "A2024030001" Sample.nine 30 cancelled;
        Sample.booking Sample.id2 "A2024030002" Sample.nine 30 scheduled ] in
  let l :=
    [ (Sample.at_desk Sample.id3,
       Routes.PutAppointment Sample.id1 (Sample.set_status scheduled)) ] in
  store_invariant db
  /\ (exists after,
        snd (Routes.handle db
               (Sample.at_desk Sample.id3,
                Routes.PutAppointment Sample.id1 (Sample.set_status scheduled)))
        = Success 200 (Some after))
  /\ map (fun r => (id r, status r, appointment_date r))
       (appointments (Routes.run db l))
     = [ (Sample.id1, scheduled, Sample.nine);
         (Sample.id2, scheduled, Sample.nine) ]
  /\ ~ store_invariant (Routes.run db l).
Proof.
split; [|split; [|split]].
- apply store_invariantb_spec. vm_compute. reflexivity.
- eexists. vm_compute. reflexivity.
- vm_compute. reflexivity.
- intros H. apply store_invariantb_spec in H. vm_compute in H. discriminate H.
Qed.

Lemma run_preserves_no_double_booking_witness :
  let db :=
    Sample.clinic
      [ Sample.booking Sample.id1 "A2024030001" Sample.nine 30 scheduled;
        Sample.booking Sample.id2 "A2024030002" (Sample.nine + 1800000) 30
          confirmed ] in
  let l :=
    [ (Sample.at_desk Sample.id3,
       Routes.PutAppointment Sample.id1 (Sample.set_status confirmed));
      (Sample.at_desk Sample.id3,
       Routes.PostCancel Sample.id2 None);
      (Sample.at_desk Sample.id3,
       Routes.PutAppointment Sample.id1 (Sample.set_status completed)) ] in
  store_invariant db /\ no_reactivation db l = true
  /\ store_invariant (Routes.run db l).
Proof.
  intros db l.
  assert (H1 : store_invariant db)
    by (apply store_invariantb_spec; vm_compute; reflexivity).
  assert (H2 : no_reactivation db l = true) by (vm_compute; reflexivity).
  split; [exact H1|]. split; [exact H2|].
  exact (run_preserves_no_double_booking db l H1 H2).
Defined.

Section Strings.

Lemma prefix_app p s : String.prefix p (p ++ s) = true.
Proof.
induction p as [|a p IH]; simpl; [now destruct s|].
destruct (ascii_dec a a); [exact IH|congruence].
Qed.

Lemma substring_full s : substring 0 (String.length s) s = s.
Proof. induction s as [|a s IH]; simpl; [reflexivity|now rewrite IH]. Qed.

Lemma trailing_app p s : trailing p (p ++ s) = s.
Proof.
unfold trailing. induction p as [|a p IH]; simpl.
- rewrite Nat.sub_0_r. apply substring_full.
- exact IH.
Qed.

Lemma prefix_split p s :
  String.prefix p s = true -> s = p ++ trailing p s.
Proof.
revert s. induction p as [|a p IH]; intros s H.
- unfold trailing. simpl. rewrite Nat.sub_0_r. symmetry. apply substring_full.
- destruct s as [|b s]; simpl in H; [discriminate|].
  destruct (ascii_dec a b) as [<-|]; [|discriminate].
  simpl. f_equal. exact (IH s H).
Qed.

Lemma remove_first_prefix p s :
  String.prefix p s = true -> JS.remove_first p s = trailing p s.
Proof. intros H. destruct s; cbn [JS.remove_first]; rewrite H; reflexivity. Qed.

Lemma ascii_compare_refl a : Ascii.compare a a = Eq.
Proof. unfold Ascii.compare. apply N.compare_refl. Qed.

Lemma compare_app p a b : String.compare (p ++ a) (p ++ b) = String.compare a b.
Proof.
induction p as [|c p IH]; simpl; [reflexivity|].
now rewrite ascii_compare_refl.
Qed.

End Strings.

Section Digits.

Lemma digit_cases c :
  is_digit c = true ->
  In c ["0"; "1"; "2"; "3"; "4"; "5"; "6"; "7"; "8"; "9"]%char.
Proof.
destruct c as [[] [] [] [] [] [] [] []]; intros H;
  try (vm_compute in H; discriminate H); simpl; tauto.
Qed.

Ltac each_digit c H :=
  apply digit_cases in H; simpl in H;
  repeat (destruct H as [<-|H]; [|]); try contradiction.

Lemma digit_code c :
  is_digit c = true ->
  48 <= Z.of_nat (nat_of_ascii c) <= 57
  /\ N_of_ascii c = Z.to_N (Z.of_nat (nat_of_ascii c)).
Proof. intros H. each_digit c H; vm_compute; intuition discriminate. Qed.

Lemma digit_plain c :
  is_digit c = true ->
  JS.is_white_space c = false
  /\ (c =? "-")%char = false /\ (c =? "+")%char = false
  /\ (c =? "x")%char = false /\ (c =? "X")%char = false
  /\ JS.digit_value c = Some (Z.of_nat (nat_of_ascii c) - 48).
Proof. intros H. each_digit c H; vm_compute; intuition. Qed.

Lemma digits_value_from_bounds s acc :
  all_digits s = true ->
  digits_value_from acc s
  = acc * 10 ^ Z.of_nat (String.length s) + digits_value_from 0 s
  /\ 0 <= digits_value_from 0 s < 10 ^ Z.of_nat (String.length s).
Proof.
revert acc. induction s as [|c s IH]; intros acc H.
- simpl. lia.
- simpl in H. apply andb_true_iff in H. destruct H as [Hc Hs].
  destruct (digit_code c Hc) as [Hcode _].
  cbn [digits_value_from String.length].
  rewrite Nat2Z.inj_succ, Z.pow_succ_r by lia.
  destruct (IH (acc * 10 + (Z.of_nat (nat_of_ascii c) - 48)) Hs) as [E1 _].
  destruct (IH (0 * 10 + (Z.of_nat (nat_of_ascii c) - 48)) Hs) as [E2 B].
  rewrite E1, E2. split; nia.
Qed.

Lemma digits_value_nonneg s : all_digits s = true -> 0 <= digits_value s.
Proof. intros H. apply (digits_value_from_bounds s 0 H). Qed.

Lemma parse_digits_all s a :
  all_digits s = true ->
  JS.parse_digits 10 (Some a) s = Some (digits_value_from a s).
Proof.
revert a. induction s as [|c s IH]; intros a H; simpl; [reflexivity|].
simpl in H. apply andb_true_iff in H. destruct H as [Hc Hs].
destruct (digit_plain c Hc) as (_ & _ & _ & _ & _ & ->).
destruct (digit_code c Hc) as [Hcode _].
destruct (Z.ltb_spec (Z.of_nat (nat_of_ascii c) - 48) 10); [|lia].
now apply IH.
Qed.

Lemma parse_digits_first c s :
  all_digits (String c s) = true ->
  JS.parse_digits 10 None (String c s) = Some (digits_value (String c s)).
Proof.
intros H. simpl in H. apply andb_true_iff in H. destruct H as [Hc Hs].
destruct (digit_plain c Hc) as (_ & _ & _ & _ & _ & V).
destruct (digit_code c Hc) as [Hcode _].
cbn [JS.parse_digits]. rewrite V.
destruct (Z.ltb_spec (Z.of_nat (nat_of_ascii c) - 48) 10); [|lia].
rewrite (parse_digits_all _ _ Hs). reflexivity.
Qed.

(** [parseInt] reads a run of at least two decimal digits as the number
    it denotes. *)
Lemma parseInt_digits c1 c2 r :
  all_digits (String c1 (String c2 r)) = true ->
  JS.parseInt (String c1 (String c2 r))
  = Some (digits_value (String c1 (String c2 r))).
Proof.
intros H. pose proof H as Hall. simpl in H.
rewrite !andb_true_iff in H. destruct H as (H1 & H2 & Hr).
destruct (digit_plain c1 H1) as (W1 & M1 & P1 & _ & _ & V1).
destruct (digit_plain c2 H2) as (_ & _ & _ & X2 & X2' & _).
destruct (digit_code c1 H1) as [Hcode _].
unfold JS.parseInt. cbn [JS.skip_white_space]. rewrite W1, M1, P1, X2, X2'.
rewrite andb_false_r. now rewrite (parse_digits_first _ _ Hall).
Qed.

Lemma four_digits_shape s :
  four_digits s = true ->
  all_digits s = true /\ String.length s = 4%nat
  /\ exists c1 c2 r, s = String c1 (String c2 r).
Proof.
unfold four_digits. rewrite andb_true_iff, Nat.eqb_eq. intros [L A].
split; [exact A|]. split; [exact L|].
destruct s as [|c1 [|c2 r]]; try discriminate L. now exists c1, c2, r.
Qed.

Lemma parseInt_four_digits s :
  four_digits s = true -> JS.parseInt s = Some (digits_value s).
Proof.
intros H. destruct (four_digits_shape s H) as (A & _ & c1 & c2 & r & ->).
now apply parseInt_digits.
Qed.

End Digits.

Section Ordering.

Lemma digits_value_cons c s :
  all_digits (String c s) = true ->
  digits_value (String c s)
  = (Z.of_nat (nat_of_ascii c) - 48) * 10 ^ Z.of_nat (String.length s)
    + digits_value s
  /\ 0 <= digits_value s < 10 ^ Z.of_nat (String.length s).
Proof.
intros H. simpl in H. apply andb_true_iff in H. destruct H as [_ Hs].
unfold digits_value. cbn [digits_value_from].
destruct (digits_value_from_bounds s
            (0 * 10 + (Z.of_nat (nat_of_ascii c) - 48)) Hs) as [E B].
rewrite E. split; [f_equal; lia|exact B].
Qed.

(** On digit strings of one length the order of the strings is the order
    of the numbers. *)
Lemma compare_digits a b :
  all_digits a = true -> all_digits b = true ->
  String.length a = String.length b ->
  String.compare a b = Z.compare (digits_value a) (digits_value b).
Proof.
revert b. induction a as [|c1 a IH]; intros [|c2 b] Ha Hb L;
  try discriminate L; [reflexivity|].
injection L as L.
destruct (digits_value_cons c1 a Ha) as [E1 B1].
destruct (digits_value_cons c2 b Hb) as [E2 B2].
rewrite E1, E2, <- L in *. clear E1 E2.
simpl in Ha, Hb. apply andb_true_iff in Ha, Hb.
destruct Ha as [Hc1 Ha], Hb as [Hc2 Hb].
destruct (digit_code c1 Hc1) as [R1 N1], (digit_code c2 Hc2) as [R2 N2].
cbn [String.compare]. unfold Ascii.compare. rewrite N1, N2.
rewrite Z2N.inj_compare by lia.
set (n1 := Z.of_nat (nat_of_ascii c1)) in *.
set (n2 := Z.of_nat (nat_of_ascii c2)) in *.
set (w := 10 ^ Z.of_nat (String.length a)) in *.
destruct (Z.compare_spec n1 n2) as [E|E|E].
- rewrite (IH b Ha Hb L), E. symmetry. apply Z.add_compare_mono_l.
- symmetry. apply Z.compare_lt_iff. nia.
- symmetry. apply Z.compare_gt_iff. nia.
Qed.

Variable prefix : string.

Lemma compare_padded a b :
  padded_number prefix a -> padded_number prefix b ->
  String.compare a b
  = Z.compare (sequence_of prefix a) (sequence_of prefix b).
Proof.
intros [Pa Fa] [Pb Fb].
rewrite (prefix_split _ _ Pa), (prefix_split _ _ Pb) at 1.
rewrite compare_app.
destruct (four_digits_shape _ Fa) as (Aa & La & _).
destruct (four_digits_shape _ Fb) as (Ab & Lb & _).
apply compare_digits; congruence.
Qed.

Lemma greatest_padded l :
  (forall s, In s l -> padded_number prefix s) ->
  match Appointment.greatest l with
  | None => l = []
  | Some g =>
      In g l /\ forall s, In s l -> sequence_of prefix s <= sequence_of prefix g
  end.
Proof.
induction l as [|s l IH]; intros Hp; simpl; [reflexivity|].
assert (Hl : forall x, In x l -> padded_number prefix x)
  by (intros x Hx; apply Hp; now right).
specialize (IH Hl).
destruct (Appointment.greatest l) as [m|].
- destruct IH as [Hm Hmax]. unfold Appointment.greater.
  rewrite (compare_padded s m (Hp s (or_introl eq_refl)) (Hl m Hm)).
  destruct (Z.compare_spec (sequence_of prefix s) (sequence_of prefix m))
    as [E|E|E].
  + split; [now left|]. intros x [<-|Hx]; [lia|]. specialize (Hmax x Hx). lia.
  + split; [now right|]. intros x [<-|Hx]; [lia|]. now apply Hmax.
  + split; [now left|]. intros x [<-|Hx]; [lia|]. specialize (Hmax x Hx). lia.
- subst l. split; [now left|]. intros x [<-|[]]. lia.
Qed.

Lemma fold_max_spec k l :
  In (fold_right Z.max k l) (k :: l)
  /\ forall x, In x (k :: l) -> x <= fold_right Z.max k l.
Proof.
induction l as [|y l [IH1 IH2]]; simpl.
- split; [now left|]. intros x [<-|[]]. lia.
- split.
  + destruct (Z.max_spec y (fold_right Z.max k l)) as [[_ ->]|[_ ->]].
    * destruct IH1 as [E|E]; [now left|now right; right].
    * now right; left.
  + intros x [<-|[<-|Hx]].
    * specialize (IH2 k (or_introl eq_refl)). lia.
    * lia.
    * specialize (IH2 x (or_intror Hx)). lia.
Qed.

Lemma greatest_sequence_spec numbers m :
  greatest_sequence prefix numbers = Some m <->
  In m (sequences prefix numbers)
  /\ forall k, In k (sequences prefix numbers) -> k <= m.
Proof.
unfold greatest_sequence. destruct (sequences prefix numbers) as [|k l].
- split; [discriminate|intros [[] _]].
- destruct (fold_max_spec k l) as [H1 H2]. split.
  + intros [= <-]. now split.
  + intros [Hm Hmax]. f_equal.
    specialize (H2 m Hm). specialize (Hmax _ H1). lia.
Qed.

Lemma greatest_sequence_none numbers :
  greatest_sequence prefix numbers = None <->
  Appointment.in_scope prefix numbers = [].
Proof.
unfold greatest_sequence, sequences, Appointment.in_scope.
destruct (filter (String.prefix prefix) numbers); simpl; split;
  congruence.
Qed.

Lemma in_scope_padded numbers :
  scope_padded prefix numbers ->
  forall s, In s (Appointment.in_scope prefix numbers) -> padded_number prefix s.
Proof.
intros Hp s Hs. unfold Appointment.in_scope in Hs. apply filter_In in Hs.
destruct Hs as [Hin Hpre]. split; [exact Hpre|now apply Hp].
Qed.

(** With a padded scope the code's next number is the greatest sequence
    plus one, or one in an empty scope. *)
Lemma next_number_padded numbers :
  scope_padded prefix numbers ->
  Appointment.next_number prefix numbers
  = Some (match greatest_sequence prefix numbers with
          | Some m => m + 1
          | None => 1
          end).
Proof.
intros Hp. unfold Appointment.next_number.
pose proof (greatest_padded _ (in_scope_padded numbers Hp)) as Hg.
destruct (Appointment.greatest (Appointment.in_scope prefix numbers))
  as [g|].
- destruct Hg as [Hin Hmax].
  destruct (in_scope_padded numbers Hp g Hin) as [Pg Fg].
  rewrite (remove_first_prefix _ _ Pg), (parseInt_four_digits _ Fg). simpl.
  assert (greatest_sequence prefix numbers = Some (sequence_of prefix g)) as ->;
    [|reflexivity].
  apply greatest_sequence_spec. unfold sequences. split.
  + apply in_map_iff. now exists g.
  + intros k Hk. apply in_map_iff in Hk. destruct Hk as (s & <- & Hs).
    now apply Hmax.
- apply greatest_sequence_none in Hg. now rewrite Hg.
Qed.

End Ordering.

Section Generation.

Lemma pad4_sound_upto k : 0 <= k <= 10000 -> pad4_sound k = true.
Proof.
intros Hk.
assert (H : forallb (fun n => pad4_sound (Z.of_nat n))
              (seq 0 (Z.to_nat 10001)) = true)
  by (vm_compute; reflexivity).
rewrite forallb_forall in H. specialize (H (Z.to_nat k)).
rewrite Z2Nat.id in H by lia. apply H, in_seq. lia.
Qed.

Lemma pad4_value k :
  0 <= k <= 10000 ->
  digits_value (pad4 k) = k /\ (k <= 9999 -> four_digits (pad4 k) = true).
Proof.
intros Hk. pose proof (pad4_sound_upto k Hk) as H. unfold pad4_sound in H.
rewrite !andb_true_iff, Z.eqb_eq, orb_true_iff, Z.ltb_lt in H.
destruct H as [[_ Hv] Hf]. split; [exact Hv|]. intros H9.
destruct Hf as [Hf|Hf]; [lia|exact Hf].
Qed.

Variable c : clock.

Let prefix : string := Appointment.number_prefix (fullYear c) (monthIndex c).

Lemma number_after_specified numbers :
  scope_padded prefix numbers ->
  Appointment.number_after c numbers = specified_number c numbers.
Proof.
intros Hp. unfold Appointment.number_after, specified_number.
fold prefix. now rewrite (next_number_padded prefix numbers Hp).
Qed.

Lemma last_sequence_nonneg numbers :
  scope_padded prefix numbers -> 0 <= last_sequence prefix numbers.
Proof.
intros Hp. unfold last_sequence.
destruct (greatest_sequence prefix numbers) as [m|] eqn:E; [|lia].
apply greatest_sequence_spec in E. destruct E as [Hin _].
unfold sequences in Hin. apply in_map_iff in Hin.
destruct Hin as (s & <- & Hs). apply filter_In in Hs. destruct Hs as [Hs Hpre].
apply digits_value_nonneg.
now destruct (four_digits_shape _ (Hp s Hs Hpre)).
Qed.

Lemma number_after_last numbers :
  scope_padded prefix numbers ->
  Appointment.number_after c numbers
  = prefix ++ pad4 (last_sequence prefix numbers + 1).
Proof.
intros Hp. rewrite (number_after_specified numbers Hp).
unfold specified_number, last_sequence, pad4. fold prefix.
now destruct (greatest_sequence prefix numbers).
Qed.

Lemma sequences_app numbers d :
  sequences prefix (numbers ++ [prefix ++ d])
  = (sequences prefix numbers ++ [digits_value d])%list.
Proof.
unfold sequences. rewrite filter_app, map_app. cbn [filter].
rewrite prefix_app. cbn [map]. unfold sequence_of. now rewrite trailing_app.
Qed.

(** Storing the generated number keeps the scope padded and makes it the
    greatest of the scope. *)
Lemma store_generated numbers :
  scope_padded prefix numbers ->
  last_sequence prefix numbers + 1 <= 9999 ->
  let s := Appointment.number_after c numbers in
  scope_padded prefix (numbers ++ [s])
  /\ last_sequence prefix (numbers ++ [s]) = last_sequence prefix numbers + 1.
Proof.
intros Hp Hm s. subst s. rewrite (number_after_last numbers Hp).
pose proof (last_sequence_nonneg numbers Hp) as H0.
set (m := last_sequence prefix numbers) in *.
destruct (pad4_value (m + 1)) as [Hv Hf]; [lia|]. split.
- intros x Hx Hpre. apply in_app_or in Hx. destruct Hx as [Hx|[<-|[]]].
  + now apply Hp.
  + rewrite trailing_app. apply Hf. lia.
- unfold last_sequence at 1.
  assert (greatest_sequence prefix (numbers ++ [prefix ++ pad4 (m + 1)])
          = Some (m + 1)) as ->; [|reflexivity].
  apply greatest_sequence_spec. rewrite sequences_app, Hv. split.
  + apply in_or_app. right. now left.
  + intros k Hk. apply in_app_or in Hk. destruct Hk as [Hk|[<-|[]]]; [|lia].
    subst m. unfold last_sequence.
    destruct (greatest_sequence prefix numbers) as [g|] eqn:E.
    * apply greatest_sequence_spec in E. destruct E as [_ E].
      specialize (E k Hk). lia.
    * apply greatest_sequence_none in E. unfold sequences in Hk.
      unfold Appointment.in_scope in E. rewrite E in Hk. destruct Hk.
Qed.

Lemma generate_in_a_row_sequences n : forall numbers,
  scope_padded prefix numbers ->
  last_sequence prefix numbers + Z.of_nat n <= 10000 ->
  map (sequence_of prefix) (generate_in_a_row c n numbers)
  = map (fun i => last_sequence prefix numbers + Z.of_nat i) (seq 1 n).
Proof.
induction n as [|n IH]; intros numbers Hp Hn; [reflexivity|].
pose proof (last_sequence_nonneg numbers Hp) as H0.
cbn [generate_in_a_row map seq]. f_equal.
- rewrite (number_after_last numbers Hp). unfold sequence_of.
  rewrite trailing_app. apply pad4_value. lia.
- destruct n as [|n]; [reflexivity|].
  destruct (store_generated numbers Hp) as [Hp' Hl']; [lia|].
  rewrite (IH _ Hp') by lia. rewrite Hl', <- (seq_shift (S n) 1), map_map.
  apply map_ext. intros i. lia.
Qed.

Lemma increasing_from m a n :
  StronglySorted Z.lt (map (fun i => m + Z.of_nat i) (seq a n)).
Proof.
revert a. induction n as [|n IH]; intros a; simpl; constructor; [apply IH|].
apply Forall_forall. intros x Hx. apply in_map_iff in Hx.
destruct Hx as (i & <- & Hi). apply in_seq in Hi. lia.
Qed.

Lemma distinct_from m a n :
  NoDup (map (fun i => m + Z.of_nat i) (seq a n)).
Proof.
apply Injective_map_NoDup; [|apply seq_NoDup].
intros i j H. lia.
Qed.

End Generation.

(** C4, as the code has it: whatever the time of generation, when every
    number of the month's scope is the prefix followed by four digits (the
    shape of what the generator writes up to 9999), the generated number
    is the prefix 'A' + year + two-digit month followed by the greatest
    existing sequence plus one, or by one in an empty scope, zero-padded to
    four digits; [n] generations in a row, each stored before the next,
    carry the sequences last+1, ..., last+n, strictly increasing and
    pairwise distinct, as long as last+n stays within 10000.  In
    March 2024 the first number is A2024030001 and the next A2024030002. *)
Theorem generateAppointmentNumber_in_padded_scope
    (c : clock) (tbl : list appointment) (n : nat) :
  let prefix := Appointment.number_prefix (fullYear c) (monthIndex c) in
  let numbers := map appointment_number tbl in
  scope_padded prefix numbers ->
  last_sequence prefix numbers + Z.of_nat n <= 10000 ->
  Appointment.generateAppointmentNumber c tbl = specified_number c numbers
  /\ (last_sequence prefix numbers < 9999 ->
      four_digits
        (trailing prefix (Appointment.generateAppointmentNumber c tbl)) = true)
  /\ (let generated := generate_in_a_row c n numbers in
      map (sequence_of prefix) generated
      = map (fun i => last_sequence prefix numbers + Z.of_nat i) (seq 1 n)
      /\ StronglySorted Z.lt (map (sequence_of prefix) generated)
      /\ NoDup generated)
  /\ (forall t r,
        Appointment.generateAppointmentNumber (mkClock t 2024 2) []
        = "A2024030001"
        /\ (appointment_number r = "A2024030001" ->
            Appointment.generateAppointmentNumber (mkClock t 2024 2) [r]
            = "A2024030002")).
Proof.
intros prefix numbers Hp Hn.
pose proof (last_sequence_nonneg c numbers Hp) as H0. fold prefix in H0.
pose proof (generate_in_a_row_sequences c n numbers Hp Hn) as Hseq.
fold prefix in Hseq.
split; [|split; [|split]].
- exact (number_after_specified c numbers Hp).
- intros Hlt. unfold Appointment.generateAppointmentNumber. fold numbers.
  rewrite (number_after_last c numbers Hp). fold prefix.
  rewrite trailing_app. apply pad4_value; lia.
- cbv zeta. split; [exact Hseq|]. split.
  + rewrite Hseq. apply increasing_from.
  + apply (NoDup_map_inv (sequence_of prefix)). rewrite Hseq.
    apply distinct_from.
- intros t r. split; [reflexivity|]. intros Hr.
  unfold Appointment.generateAppointmentNumber. simpl map. rewrite Hr.
  reflexivity.
Qed.

Lemma generateAppointmentNumber_in_padded_scope_witness :
  let c := Sample.morning in
  let tbl := [ Sample.booking Sample.id1 "A2024030001" Sample.nine 30 scheduled ] in
  let prefix := Appointment.number_prefix (fullYear c) (monthIndex c) in
  let numbers := map appointment_number tbl in
  scope_padded prefix numbers
  /\ last_sequence prefix numbers + Z.of_nat 3 <= 10000
  /\ Appointment.generateAppointmentNumber c tbl = specified_number c numbers
  /\ map (sequence_of prefix) (generate_in_a_row c 3 numbers) = [2; 3; 4].
Proof.
intros c tbl prefix numbers.
assert (H1 : scope_padded prefix numbers).
{ intros s [<-|[]] _. reflexivity. }
assert (H2 : last_sequence prefix numbers + Z.of_nat 3 <= 10000)
  by (vm_compute; discriminate).
split; [exact H1|]. split; [exact H2|].
destruct (generateAppointmentNumber_in_padded_scope c tbl 3 H1 H2)
  as (E1 & _ & (E2 & _) & _).
split; [exact E1|exact E2].
Defined.

(** Where C4 as worded fails: once a five-digit number is stored, the
    query's greatest string is still ...9999, so the number after 10000 is
    10000 again and not 10001; three generations in a row from 9998 end in
    a repeated number. *)
Lemma generateAppointmentNumber_after_10000 :
  let c := Sample.morning in
  let tbl :=
    [ Sample.booking Sample.id1 "A2024039999" Sample.nine 30 scheduled;
      Sample.booking Sample.id2 "A20240310000" (Sample.nine + 1800000) 30
        scheduled ] in
  Appointment.generateAppointmentNumber c tbl = "A20240310000"
  /\ specified_number c (map appointment_number tbl) = "A20240310001"
  /\ Appointment.generateAppointmentNumber c tbl
     <> specified_number c (map appointment_number tbl)
  /\ generate_in_a_row c 3 ["A2024039998"]
     = ["A2024039999"; "A20240310000"; "A20240310000"]
  /\ ~ NoDup (generate_in_a_row c 3 ["A2024039998"]).
Proof.
intros c tbl.
assert (E1 : Appointment.generateAppointmentNumber c tbl = "A20240310000")
  by (vm_compute; reflexivity).
assert (E2 : specified_number c (map appointment_number tbl) = "A20240310001")
  by (vm_compute; reflexivity).
assert (E3 : generate_in_a_row c 3 ["A2024039998"]
             = ["A2024039999"; "A20240310000"; "A20240310000"])
  by (vm_compute; reflexivity).
split; [exact E1|]. split; [exact E2|]. split; [|split; [exact E3|]].
- rewrite E1, E2. discriminate.
- rewrite E3. intros H. inversion H as [|? ? _ H']. subst.
  inversion H' as [|? ? Hnot _]. subst. apply Hnot. now left.
Qed.

(** C5, as the code has it: in a scope whose numbers are all the prefix
    followed by four digits and whose greatest sequence is 9999, the
    generation does not fail: it returns the prefix followed by 10000,
    five digits that are neither cut nor wrapped around, and the number is
    none of the existing ones.  No capacity error exists in the code. *)
Theorem generateAppointmentNumber_at_9999
    (c : clock) (tbl : list appointment) :
  let prefix := Appointment.number_prefix (fullYear c) (monthIndex c) in
  let numbers := map appointment_number tbl in
  scope_padded prefix numbers ->
  greatest_sequence prefix numbers = Some 9999 ->
  Appointment.generateAppointmentNumber c tbl = prefix ++ "10000"
  /\ sequence_of prefix (Appointment.generateAppointmentNumber c tbl) = 10000
  /\ ~ In (Appointment.generateAppointmentNumber c tbl) numbers.
Proof.
intros prefix numbers Hp Hg.
assert (E : Appointment.generateAppointmentNumber c tbl = prefix ++ "10000").
{ unfold Appointment.generateAppointmentNumber. fold numbers.
  rewrite (number_after_last c numbers Hp). fold prefix.
  unfold last_sequence. now rewrite Hg. }
rewrite E. split; [reflexivity|]. split.
- unfold sequence_of. now rewrite trailing_app.
- intros Hin. specialize (Hp _ Hin (prefix_app _ _)).
  rewrite trailing_app in Hp. discriminate Hp.
Qed.

Lemma generateAppointmentNumber_at_9999_witness :
  let c := Sample.morning in
  let tbl := [ Sample.booking Sample.id1 "A2024039999" Sample.nine 30 scheduled ] in
  let prefix := Appointment.number_prefix (fullYear c) (monthIndex c) in
  let numbers := map appointment_number tbl in
  scope_padded prefix numbers
  /\ greatest_sequence prefix numbers = Some 9999
  /\ Appointment.generateAppointmentNumber c tbl = prefix ++ "10000".
Proof.
intros c tbl prefix numbers.
assert (H1 : scope_padded prefix numbers).
{ intros s [<-|[]] _. reflexivity. }
assert (H2 : greatest_sequence prefix numbers = Some 9999) by reflexivity.
split; [exact H1|]. split; [exact H2|].
exact (proj1 (generateAppointmentNumber_at_9999 c tbl H1 H2)).
Defined.

(** Where C5 as worded fails: with A2024039999 stored, the generator
    returns A20240310000, and [Appointment.create] stores the row under
    that number; nothing fails. *)
Lemma no_capacity_error_at_9999 :
  let c := Sample.morning in
  let tbl := [ Sample.booking Sample.id1 "A2024039999" Sample.nine 30 scheduled ] in
  let body := Sample.request_for (Sample.nine + 1800000) None in
  greatest_sequence (Appointment.number_prefix 2024 2)
    (map appointment_number tbl) = Some 9999
  /\ Appointment.generateAppointmentNumber c tbl = "A20240310000"
  /\ exists tbl' r,
       Appointment.create Sample.id2 Sample.desk1 c tbl body = Some (tbl', r)
       /\ appointment_number r = "A20240310000".
Proof.
intros c tbl body. split; [reflexivity|]. split; [reflexivity|].
do 2 eexists. split; [vm_compute; reflexivity|reflexivity].
Qed.

Section Transitions.

Import AppointmentController.

Lemma findById_update_where g i tbl x :
  (forall r, id (g r) = id r) ->
  Appointment.findById tbl i = Some x ->
  Appointment.findById (Appointment.update_where g i tbl) i = Some (g x).
Proof.
intros Hg. unfold Appointment.findById, Appointment.update_where.
induction tbl as [|r tbl IH]; simpl; [discriminate|].
destruct (String.eqb_spec (id r) i) as [E|E].
- intros [= ->]. rewrite Hg. now rewrite (proj2 (String.eqb_eq _ _) E).
- intros H. apply String.eqb_neq in E. rewrite E. now apply IH.
Qed.

Lemma findById_update_where_other g i j tbl :
  (forall r, id (g r) = id r) -> j <> i ->
  Appointment.findById (Appointment.update_where g i tbl) j
  = Appointment.findById tbl j.
Proof.
intros Hg Hji. unfold Appointment.findById, Appointment.update_where.
induction tbl as [|r tbl IH]; simpl; [reflexivity|].
destruct (String.eqb_spec (id r) i) as [E|E].
- rewrite Hg. destruct (String.eqb_spec (id r) j) as [E'|_]; [congruence|].
  exact IH.
- destruct (id r =? j)%string; [reflexivity|exact IH].
Qed.

Lemma update_result c tbl i u x :
  Appointment.findById tbl i = Some x ->
  Appointment.update c tbl i u
  = (Appointment.update_where (Appointment.apply_update c u) i tbl,
     Some (Appointment.apply_update c u x)).
Proof.
intros Hx. unfold Appointment.update.
rewrite (findById_update_where _ _ _ x); [reflexivity|reflexivity|exact Hx].
Qed.

Lemma update_where_length g i tbl :
  List.length (Appointment.update_where g i tbl) = List.length tbl.
Proof. unfold Appointment.update_where. apply length_map. Qed.

End Transitions.

(** C6, as the code has it: an update that only asks for a new status is
    carried out whatever the current status of the appointment: the answer
    is 200 with the updated row, the row takes the requested status, and
    the timestamp of that status is stamped (with the actor, for
    cancelled).  The code has no transition table and never answers
    InvalidTransition. *)
Theorem updateAppointment_sets_any_status
    (actor : string) (c : clock) (db : database) (i : string)
    (u : update_data) (x : appointment) (s : appointment_status) :
  Appointment.findById (appointments db) i = Some x ->
  upd_status u = Some s ->
  AppointmentController.changes_time u = false ->
  exists x',
    AppointmentController.updateAppointment actor c db i u
    = (AppointmentController.with_appointments db
         (Appointment.update_where
            (Appointment.apply_update c (AppointmentController.stamp actor c u))
            i (appointments db)),
       Success 200 (Some x'))
    /\ Appointment.findById
         (appointments (fst (AppointmentController.updateAppointment actor c db i u)))
         i = Some x'
    /\ status x' = s
    /\ match s with
       | confirmed => confirmed_at x' = Some (now c)
       | in_progress => started_at x' = Some (now c)
       | completed => completed_at x' = Some (now c)
       | cancelled =>
           cancelled_at x' = Some (now c) /\ cancelled_by x' = Some actor
       | scheduled | no_show => True
       end.
Proof.
intros Hx Hs Hct.
exists (Appointment.apply_update c (AppointmentController.stamp actor c u) x).
assert (E : AppointmentController.updateAppointment actor c db i u
   = (AppointmentController.with_appointments db
         (Appointment.update_where
            (Appointment.apply_update c (AppointmentController.stamp actor c u))
            i (appointments db)),
      Success 200
        (Some (Appointment.apply_update c
                 (AppointmentController.stamp actor c u) x)))).
{ unfold AppointmentController.updateAppointment.
  rewrite Hx, Hct. cbn [negb]. now rewrite (update_result _ _ _ _ x Hx). }
rewrite E. split; [reflexivity|]. split.
- cbn [fst AppointmentController.with_appointments appointments].
  now apply findById_update_where.
- destruct (updated_window actor c u x) as (_ & _ & Wst).
  split; [rewrite Wst, Hs; reflexivity|].
  unfold AppointmentController.stamp. rewrite Hs.
  destruct s; simpl; auto.
Qed.

Lemma updateAppointment_sets_any_status_witness :
  let tbl := [ Sample.booking Sample.id1 "A2024030001" Sample.nine 30 completed ] in
  let db := Sample.clinic tbl in
  let u := Sample.set_status confirmed in
  Appointment.findById (appointments db) Sample.id1
  = Some (Sample.booking Sample.id1 "A2024030001" Sample.nine 30 completed)
  /\ upd_status u = Some confirmed
  /\ AppointmentController.changes_time u = false
  /\ exists x',
       snd (AppointmentController.updateAppointment Sample.desk1 Sample.morning
              db Sample.id1 u) = Success 200 (Some x')
       /\ status x' = confirmed.
Proof.
intros tbl db u.
assert (H1 : Appointment.findById (appointments db) Sample.id1
  = Some (Sample.booking Sample.id1 "A2024030001" Sample.nine 30 completed))
  by reflexivity.
assert (H2 : upd_status u = Some confirmed) by reflexivity.
assert (H3 : AppointmentController.changes_time u = false) by reflexivity.
split; [exact H1|]. split; [exact H2|]. split; [exact H3|].
destruct (updateAppointment_sets_any_status Sample.desk1 Sample.morning db
            Sample.id1 u _ confirmed H1 H2 H3) as (x' & E & _ & Hs & _).
exists x'. rewrite E. split; [reflexivity|exact Hs].
Defined.

(** Where C6 as worded fails: asking for confirmed on a completed
    appointment is answered 200, and the stored row is confirmed with
    confirmed_at stamped. *)
Lemma confirmed_after_completed_is_accepted :
  let before := Sample.booking Sample.id1 "A2024030001" Sample.nine 30 completed in
  let db := Sample.clinic [ before ] in
  let res :=
    Routes.handle db
      (Sample.at_desk Sample.id2,
       Routes.PutAppointment Sample.id1 (Sample.set_status confirmed)) in
  exists after,
    snd res = Success 200 (Some after)
    /\ appointments (fst res) = [ after ]
    /\ status after = confirmed
    /\ confirmed_at after = Some Sample.eight
    /\ after <> before.
Proof.
intros before db res. eexists.
split; [vm_compute; reflexivity|].
split; [vm_compute; reflexivity|].
split; [reflexivity|]. split; [reflexivity|]. discriminate.
Qed.

Lemma status_eqb_spec a b : reflect (a = b) (status_eqb a b).
Proof. destruct a, b; simpl; constructor; congruence. Qed.




Section Creation.

Import AppointmentController.

Lemma doctor_unusable_iff o :
  doctor_unusable o = true <->
  o = None \/ exists u, o = Some u /\ (role u <> doctor \/ user_state u <> active).
Proof.
unfold doctor_unusable. destruct o as [u|].
- destruct u as [ui [] []]; simpl; split; try discriminate;
    try (intros _; right; eexists; split; [reflexivity|]; simpl;
         (left; discriminate) || (right; discriminate));
    intros [H|(u & [= <-] & [H|H])]; try discriminate H; simpl in H;
    congruence.
- split; [now left|reflexivity].
Qed.


Lemma createAppointment_failure_keeps uuid actor c db body code err :
  snd (createAppointment uuid actor c db body) = Failure code err ->
  fst (createAppointment uuid actor c db body) = db.
Proof.
unfold createAppointment.
destruct (negb (patient_exists _ _)); [reflexivity|].
destruct (doctor_unusable _); [reflexivity|].
now rewrite availability_rejected.
Qed.

End Creation.

(** C8, as the code has it: a create request is answered, in this order,
    404 "Patient not found" when the patient is absent, and 404 "Doctor
    not found" when the doctor is absent, or has a role other than doctor,
    or a status other than active: one and the same answer for the three.
    These are the only 404 answers of a create request, and every failure
    leaves the store as it was.  What follows the two lookups is not
    stated here. *)
Theorem createAppointment_outcomes
    (uuid actor : string) (c : clock) (db : database) (body : appointment_data) :
  let res := AppointmentController.createAppointment uuid actor c db body in
  let patient_known :=
    AppointmentController.patient_exists (patients db) (req_patient_id body) in
  let found := AppointmentController.find_user (users db) (req_doctor_id body) in
  let usable := exists u, found = Some u /\ role u = doctor /\ user_state u = active in
  (patient_known = false -> res = (db, Failure 404 "Patient not found"))
  /\ (patient_known = true -> ~ usable ->
      res = (db, Failure 404 "Doctor not found"))
  /\ (patient_known = true -> usable ->
      forall err, snd res <> Failure 404 err)
  /\ (forall code err, snd res = Failure code err -> fst res = db).
Proof.
intros res patient_known found usable.
assert (Hu : usable <-> AppointmentController.doctor_unusable found = false).
{ subst usable. split.
  - intros (u & -> & Hr & Hs). simpl. now rewrite Hr, Hs.
  - intros H. apply not_true_iff_false in H.
    rewrite doctor_unusable_iff in H.
    destruct found as [u|]; [|exfalso; apply H; now left].
    exists u. split; [reflexivity|].
    destruct u as [ui ro st]. simpl in *.
    destruct ro, st; try (split; reflexivity); exfalso; apply H; right;
      eexists; (split; [reflexivity|]); simpl;
      ((left; discriminate) || (right; discriminate)). }
subst res. unfold AppointmentController.createAppointment.
fold patient_known found.
split; [|split; [|split]].
- now intros ->.
- intros -> Hn. simpl.
  destruct (AppointmentController.doctor_unusable found) eqn:E; [reflexivity|].
  exfalso. apply Hn, Hu. reflexivity.
- intros -> Hy err. apply Hu in Hy. rewrite Hy. cbn [negb].
  rewrite availability_rejected. discriminate.
- intros code err. apply createAppointment_failure_keeps.
Qed.

(** A request that names an inactive doctor, and one for a patient that
    is not on file. *)
Lemma createAppointment_outcomes_witness :
  let retired := "3f2504e0-4f89-41d3-9a0c-0305e82c3301" in
  let db :=
    mkDatabase [Sample.patient1]
      (mkUser retired doctor inactive :: Sample.staff) [] in
  let to_retired :=
    mkAppointmentData Sample.patient1 retired Sample.nine None
      consultation None None None in
  let for_unknown :=
    mkAppointmentData Sample.id3 Sample.doctor1 Sample.nine None
      consultation None None None in
  AppointmentController.createAppointment Sample.id2 Sample.desk1
    Sample.morning db to_retired
  = (db, Failure 404 "Doctor not found")
  /\ AppointmentController.createAppointment Sample.id2 Sample.desk1
       Sample.morning db for_unknown
     = (db, Failure 404 "Patient not found").
Proof.
intros retired db to_retired for_unknown. split.
- destruct (createAppointment_outcomes Sample.id2 Sample.desk1 Sample.morning
              db to_retired) as (_ & E & _).
  apply E; [reflexivity|].
  intros (u & Hf & _ & Hs). vm_compute in Hf.
  injection Hf as <-. discriminate Hs.
- destruct (createAppointment_outcomes Sample.id2 Sample.desk1 Sample.morning
              db for_unknown) as (E & _).
  apply E. reflexivity.
Defined.

(** Where C8 as worded fails: a request that names an active nurse as the
    doctor gets the very answer of a request that names nobody known,
    404 "Doctor not found"; there is no separate InvalidReference. *)
Lemma wrong_role_is_answered_not_found :
  let db := Sample.clinic [] in
  let to_nurse :=
    mkAppointmentData Sample.patient1 Sample.nurse1 Sample.nine None
      consultation None None None in
  let to_nobody :=
    mkAppointmentData Sample.patient1 Sample.id3 Sample.nine None
      consultation None None None in
  AppointmentController.find_user (users db) Sample.nurse1
  = Some (mkUser Sample.nurse1 nurse active)
  /\ AppointmentController.find_user (users db) Sample.id3 = None
  /\ Routes.handle db (Sample.at_desk Sample.id2, Routes.PostAppointment to_nurse)
     = (db, Failure 404 "Doctor not found")
  /\ Routes.handle db (Sample.at_desk Sample.id2, Routes.PostAppointment to_nobody)
     = Routes.handle db (Sample.at_desk Sample.id2, Routes.PostAppointment to_nurse).
Proof. repeat split. Qed.







(* ================================================================== *)
(** * Properties of the rest of the code *)

Section Lookups.

Lemma findById_app_fresh tbl r :
  ~ In (id r) (map id tbl) ->
  Appointment.findById (tbl ++ [r]) (id r) = Some r.
Proof.
intros Hfresh. unfold Appointment.findById.
induction tbl as [|x tbl IH]; simpl.
- now rewrite String.eqb_refl.
- destruct (String.eqb_spec (id x) (id r)) as [E|E].
  + exfalso. apply Hfresh. left. exact E.
  + apply IH. intros H. apply Hfresh. now right.
Qed.

Lemma findById_app_old tbl r j x :
  Appointment.findById tbl j = Some x ->
  Appointment.findById (tbl ++ [r]) j = Some x.
Proof.
unfold Appointment.findById. induction tbl as [|y tbl IH]; simpl;
  [discriminate|].
destruct (id y =? j)%string; [trivial|exact IH].
Qed.

Lemma update_where_missing g i tbl :
  Appointment.findById tbl i = None ->
  Appointment.update_where g i tbl = tbl.
Proof.
unfold Appointment.findById, Appointment.update_where.
induction tbl as [|r tbl IH]; simpl; [reflexivity|].
destruct (id r =? i)%string; [discriminate|].
intros H. now rewrite IH.
Qed.

End Lookups.

(** X1: a row stored by [Appointment.create] is the one
    [getAppointmentById] returns for its id; the id is the one the store
    gave it and was answered 404 before; and every appointment that could
    be read before is read unchanged after. *)
Theorem created_appointment_is_found
    (uuid actor : string) (c : clock) (tbl tbl' : list appointment)
    (body : appointment_data) (r : appointment) :
  Appointment.create uuid actor c tbl body = Some (tbl', r) ->
  AppointmentListing.getAppointmentById tbl' (id r) = Success 200 (Some r)
  /\ id r = uuid
  /\ AppointmentListing.getAppointmentById tbl uuid
     = Failure 404 "Appointment not found"
  /\ forall j x,
       Appointment.findById tbl j = Some x ->
       AppointmentListing.getAppointmentById tbl' j = Success 200 (Some x).
Proof.
unfold Appointment.create.
set (r0 := Appointment.new_row uuid _ actor c body).
destruct (Appointment.insert tbl r0) as [tbl0|] eqn:Hins; [|discriminate].
apply insert_Some in Hins. destruct Hins as [-> Hfresh].
intros [= <- <-]. unfold AppointmentListing.getAppointmentById.
split; [now rewrite findById_app_fresh|]. split; [reflexivity|]. split.
- destruct (Appointment.findById tbl uuid) as [y|] eqn:E; [|reflexivity].
  exfalso. apply Hfresh. apply findById_In in E. destruct E as [Hy <-].
  change (id r0) with (id y). now apply in_map.
- intros j x Hx. now rewrite (findById_app_old _ r0 j x Hx).
Qed.

Lemma created_appointment_is_found_witness :
  let tbl := [ Sample.booking Sample.id1 "A2024030001" Sample.nine 30 scheduled ] in
  let body := Sample.request_for (Sample.nine + 1800000) None in
  let r := Appointment.new_row Sample.id2 "A2024030002" Sample.desk1
             Sample.morning body in
  Appointment.create Sample.id2 Sample.desk1 Sample.morning tbl body
  = Some ((tbl ++ [r])%list, r)
  /\ AppointmentListing.getAppointmentById (tbl ++ [r]) (id r)
     = Success 200 (Some r).
Proof.
intros tbl body r.
assert (H : Appointment.create Sample.id2 Sample.desk1 Sample.morning tbl body
            = Some ((tbl ++ [r])%list, r)) by (vm_compute; reflexivity).
split; [exact H|].
exact (proj1 (created_appointment_is_found Sample.id2 Sample.desk1
                Sample.morning tbl _ body r H)).
Defined.

(** X2: [Appointment.update] rewrites the appointment of the given id and
    nothing else: the lookup of any other id is unchanged, the result is
    the updated row, which keeps its id, number, patient, doctor and
    creator; on an id that is not in the table it returns nothing and
    leaves the table as it is. *)
Theorem update_touches_one_appointment
    (c : clock) (tbl : list appointment) (i : string) (u : update_data) :
  (forall j, j <> i ->
     Appointment.findById (fst (Appointment.update c tbl i u)) j
     = Appointment.findById tbl j)
  /\ (forall x, Appointment.findById tbl i = Some x ->
        exists x',
          snd (Appointment.update c tbl i u) = Some x'
          /\ Appointment.findById (fst (Appointment.update c tbl i u)) i
             = Some x'
          /\ identity x' = identity x
          /\ updated_at x' = now c)
  /\ (Appointment.findById tbl i = None ->
      Appointment.update c tbl i u = (tbl, None)).
Proof.
split; [|split].
- intros j Hj. rewrite update_table.
  now apply findById_update_where_other.
- intros x Hx. rewrite (update_result c tbl i u x Hx).
  exists (Appointment.apply_update c u x). cbn [fst snd].
  split; [reflexivity|]. split; [now apply findById_update_where|].
  split; reflexivity.
- intros Hx. unfold Appointment.update.
  now rewrite (update_where_missing _ _ _ Hx), Hx.
Qed.

Lemma update_touches_one_appointment_witness :
  let x := Sample.booking Sample.id1 "A2024030001" Sample.nine 30 scheduled in
  let y := Sample.booking Sample.id2 "A2024030002" (Sample.nine + 3600000) 30
             scheduled in
  let tbl := [x; y] in
  let u := Sample.move_to (Sample.nine + 900000) in
  Sample.id2 <> Sample.id1
  /\ Appointment.findById tbl Sample.id1 = Some x
  /\ Appointment.findById
       (fst (Appointment.update Sample.morning tbl Sample.id1 u)) Sample.id2
     = Appointment.findById tbl Sample.id2
  /\ exists x',
       snd (Appointment.update Sample.morning tbl Sample.id1 u) = Some x'
       /\ identity x' = identity x.
Proof.
intros x y tbl u.
assert (H1 : Sample.id2 <> Sample.id1) by discriminate.
assert (H2 : Appointment.findById tbl Sample.id1 = Some x) by reflexivity.
destruct (update_touches_one_appointment Sample.morning tbl Sample.id1 u)
  as (E1 & E2 & _).
split; [exact H1|]. split; [exact H2|]. split; [exact (E1 _ H1)|].
destruct (E2 x H2) as (x' & Ex & _ & Ei & _). now exists x'.
Defined.

Section RunInvariants.

Import AppointmentController.

Lemma update_where_map {B : Type} (f : appointment -> B) g i tbl :
  (forall r, f (g r) = f r) ->
  map f (Appointment.update_where g i tbl) = map f tbl.
Proof.
intros Hg. unfold Appointment.update_where. rewrite map_map.
apply map_ext. intros r. destruct (id r =? i)%string; [apply Hg|reflexivity].
Qed.

(** What a request does to the table: it leaves it, or rewrites rows in
    place without touching what identifies them. *)
Lemma handle_table db x r :
  let tbl' := appointments (fst (Routes.handle db (x, r))) in
  (exists g i,
     tbl' = Appointment.update_where g i (appointments db)
     /\ forall y, identity (g y) = identity y)
  \/ tbl' = appointments db.
Proof.
unfold Routes.handle. destruct r as [body|i u|i reason].
- destruct (Routes.appointmentSchema _ _); [|now right].
  unfold createAppointment.
  destruct (negb (patient_exists _ _)); [now right|].
  destruct (doctor_unusable _); [now right|].
  rewrite availability_rejected. now right.
- destruct (Routes.appointmentUpdateSchema _ _); [|now right].
  unfold updateAppointment.
  destruct (Appointment.findById _ _) as [e|]; [|now right].
  destruct (changes_time u); [rewrite availability_rejected; now right|].
  destruct (Appointment.update _ _ _ _) as [tbl' r] eqn:Hup.
  apply (f_equal fst) in Hup. rewrite update_table in Hup. simpl in Hup.
  subst tbl'. left. eexists. exists i. split; [reflexivity|].
  reflexivity.
- unfold cancelAppointment.
  destruct (Appointment.findById _ _) as [e|]; [|now right].
  destruct (status_eqb _ _); [now right|].
  destruct (Postgres.fits_string _); [|now right].
  destruct (Appointment.update _ _ _ _) as [tbl' r] eqn:Hup.
  apply (f_equal fst) in Hup. rewrite update_table in Hup. simpl in Hup.
  subst tbl'. left. eexists. exists i. split; [reflexivity|].
  reflexivity.
Qed.

Lemma identity_parts (g : appointment -> appointment) :
  (forall y, identity (g y) = identity y) ->
  (forall y, id (g y) = id y)
  /\ (forall y, appointment_number (g y) = appointment_number y).
Proof.
intros H. split; intros y; specialize (H y); unfold identity in H;
  congruence.
Qed.

End RunInvariants.

(** X3: whatever requests are handled, no appointment leaves the table
    and none changes its id, number, patient, doctor or creator: the
    identities of the rows after the run are those before it, in the same
    order, followed by those of the rows the run created. *)
Theorem run_keeps_appointments
    (db : database) (l : list (Routes.context * Routes.request)) :
  exists added,
    map identity (appointments (Routes.run db l))
    = (map identity (appointments db) ++ added)%list.
Proof.
revert db. induction l as [|[x r] l IH]; intros db; cbn [Routes.run].
- exists []. now rewrite app_nil_r.
- destruct (IH (fst (Routes.handle db (x, r)))) as [added E].
  rewrite E. clear E IH.
  destruct (handle_table db x r) as [(g & i & -> & Hg)| ->].
  + exists added. now rewrite (update_where_map identity g i _ Hg).
  + now exists added.
Qed.

(** X4: the primary key and the unique appointment number hold after
    every sequence of requests when they hold before it. *)
Theorem run_keeps_unique_keys
    (db : database) (l : list (Routes.context * Routes.request)) :
  unique_keys (appointments db) ->
  unique_keys (appointments (Routes.run db l)).
Proof.
revert db. induction l as [|[x r] l IH]; intros db Hu; cbn [Routes.run];
  [exact Hu|].
apply IH. destruct Hu as [Hid Hnum].
destruct (handle_table db x r) as [(g & i & -> & Hg)| ->].
- destruct (identity_parts g Hg) as [G1 G2]. unfold unique_keys.
  now rewrite (update_where_map id g i _ G1),
    (update_where_map appointment_number g i _ G2).
- now split.
Qed.

Lemma run_keeps_unique_keys_witness :
  let db :=
    Sample.clinic
      [ Sample.booking Sample.id1 "A2024030001" Sample.nine 30 scheduled;
        Sample.booking Sample.id2 "A2024030002" (Sample.nine + 3600000) 30
          scheduled ] in
  let l :=
    [ (Sample.at_desk Sample.id3,
       Routes.PutAppointment Sample.id1 (Sample.set_status confirmed));
      (Sample.at_desk Sample.id3,
       Routes.PostCancel Sample.id2 (Some "patient called"));
      (Sample.at_desk Sample.id3,
       Routes.PostAppointment
         (Sample.request_for (Sample.nine + 7200000) (Some 30))) ] in
  unique_keys (appointments db)
  /\ map id (appointments (Routes.run db l)) = [Sample.id1; Sample.id2]
  /\ unique_keys (appointments (Routes.run db l)).
Proof.
intros db l.
assert (H : unique_keys (appointments db)).
{ split; apply distinctb_spec; reflexivity. }
split; [exact H|]. split; [vm_compute; reflexivity|].
exact (run_keeps_unique_keys db l H).
Defined.

Section Ordered.

Import AppointmentQueries.

Lemma insert_by_date_perm r l : Permutation (insert_by_date r l) (r :: l).
Proof.
induction l as [|x l IH]; simpl; [reflexivity|].
destruct (appointment_date r <=? appointment_date x); [reflexivity|].
rewrite IH. apply perm_swap.
Qed.

Lemma orderBy_appointment_date_perm l :
  Permutation (orderBy_appointment_date l) l.
Proof.
induction l as [|r l IH]; simpl; [reflexivity|].
rewrite insert_by_date_perm. now constructor.
Qed.

Lemma insert_by_date_sorted r l :
  Sorted by_date l -> Sorted by_date (insert_by_date r l).
Proof.
induction l as [|x l IH]; intros Hs; simpl; [repeat constructor|].
destruct (Z.leb_spec (appointment_date r) (appointment_date x)) as [H|H].
- constructor; [exact Hs|]. constructor. exact H.
- inversion Hs as [|? ? Hl Hhd]; subst. constructor; [now apply IH|].
  destruct l as [|y l]; simpl.
  + constructor. unfold by_date. lia.
  + destruct (appointment_date r <=? appointment_date y); constructor.
    * unfold by_date. lia.
    * now inversion Hhd.
Qed.

Lemma orderBy_appointment_date_sorted l :
  StronglySorted by_date (orderBy_appointment_date l).
Proof.
apply Sorted_StronglySorted.
- intros a b c. unfold by_date. lia.
- induction l as [|r l IH]; simpl; [constructor|].
  now apply insert_by_date_sorted.
Qed.

(** In a sorted list nothing of the first [n] rows comes after a row
    beyond them. *)
Lemma sorted_firstn_skipn {A : Type} (R : A -> A -> Prop) n l a b :
  StronglySorted R l -> In a (firstn n l) -> In b (skipn n l) -> R a b.
Proof.
revert n. induction l as [|x l IH]; intros n Hs Ha Hb.
- destruct n; destruct Ha.
- destruct n as [|n]; [destruct Ha|].
  inversion Hs as [|? ? Hl Hall]; subst. simpl in Ha, Hb.
  destruct Ha as [<-|Ha].
  + rewrite Forall_forall in Hall. apply Hall.
    rewrite <- (firstn_skipn n l). apply in_or_app. now right.
  + now apply (IH n).
Qed.

End Ordered.

(** X5: [findAll] returns the rows that pass every filter that is set,
    each as often as the table holds it, in ascending order of
    appointment date; without filters these are all the rows. *)
Theorem findAll_filters_and_sorts
    (utcOffset : Z) (tbl : list appointment) (f : AppointmentQueries.filters) :
  Permutation (AppointmentQueries.findAll utcOffset tbl f)
    (filter (AppointmentQueries.matches utcOffset f) tbl)
  /\ StronglySorted by_date (AppointmentQueries.findAll utcOffset tbl f)
  /\ (forall r, In r (AppointmentQueries.findAll utcOffset tbl f)
        <-> In r tbl
            /\ (forall s, AppointmentQueries.f_status f = Some s -> status r = s)
            /\ (forall d, AppointmentQueries.f_doctor_id f = Some d ->
                  d <> "" -> doctor_id r = d)
            /\ (forall p, AppointmentQueries.f_patient_id f = Some p ->
                  p <> "" -> patient_id r = p)
            /\ (forall d, AppointmentQueries.f_date f = Some d ->
                  Moment.startOfDay utcOffset d <= appointment_date r
                  <= Moment.endOfDay utcOffset d)
            /\ (forall lo hi, AppointmentQueries.f_date_range f = Some (lo, hi) ->
                  lo <= appointment_date r <= hi))
  /\ Permutation
       (AppointmentQueries.findAll utcOffset tbl AppointmentQueries.no_filter)
       tbl.
Proof.
unfold AppointmentQueries.findAll.
split; [apply orderBy_appointment_date_perm|].
split; [apply orderBy_appointment_date_sorted|]. split.
- intros r.
  rewrite (Permutation_in' (x:=r) eq_refl
             (orderBy_appointment_date_perm _)) by reflexivity.
  rewrite filter_In. unfold AppointmentQueries.matches.
  rewrite !andb_true_iff.
  destruct f as [fs fd fp fdt fr]. simpl.
  assert (Hs : AppointmentQueries.where_status fs (status r) = true
               <-> forall s, fs = Some s -> status r = s).
  { destruct fs as [s|]; simpl; [|split; [discriminate|reflexivity]].
    destruct (status_eqb_spec (status r) s) as [E|E]; split; try reflexivity.
    - now intros _ s' [= <-].
    - discriminate.
    - intros H. elim E. now apply H. }
  assert (Hw : forall o v,
            AppointmentQueries.where_string o v = true
            <-> forall d, o = Some d -> d <> "" -> v = d).
  { intros o v. destruct o as [d|]; simpl; [|split; [discriminate|reflexivity]].
    destruct (JS.truthy d) eqn:T.
    - apply truthy_true in T. rewrite String.eqb_eq. split.
      + now intros -> d' [= <-].
      + intros H. now apply H.
    - split; [|reflexivity]. intros _ d' [= <-] Hd.
      apply truthy_true in Hd. congruence. }
  assert (Hb : forall lo hi v,
            AppointmentQueries.between lo hi v = true <-> lo <= v <= hi).
  { intros lo hi v. unfold AppointmentQueries.between.
    rewrite andb_true_iff, !Z.leb_le. tauto. }
  assert (Hd : AppointmentQueries.where_date utcOffset fdt (appointment_date r)
               = true
               <-> forall d, fdt = Some d ->
                     Moment.startOfDay utcOffset d <= appointment_date r
                     <= Moment.endOfDay utcOffset d).
  { destruct fdt as [d|]; simpl; [|split; [discriminate|reflexivity]].
    rewrite Hb. split; [now intros H d' [= <-]|intros H; now apply H]. }
  assert (Hr : AppointmentQueries.where_date_range fr (appointment_date r)
               = true
               <-> forall lo hi, fr = Some (lo, hi) ->
                     lo <= appointment_date r <= hi).
  { destruct fr as [[lo hi]|]; simpl; [|split; [discriminate|reflexivity]].
    rewrite Hb. split; [now intros H lo' hi' [= <- <-]|intros H; now apply H]. }
  rewrite Hs, (Hw fd), (Hw fp), Hd, Hr. tauto.
- rewrite orderBy_appointment_date_perm.
  assert (E : filter (AppointmentQueries.matches utcOffset
                        AppointmentQueries.no_filter) tbl = tbl);
    [|now rewrite E].
  induction tbl as [|r tbl IH]; simpl; [reflexivity|]. now rewrite IH.
Qed.

(** X6: [getUpcomingAppointments] returns at most [limit] rows, all of
    them scheduled or confirmed and not before now, in ascending order of
    date, and they are the earliest such rows: a row of that kind that is
    left out starts no earlier than any row returned. *)
Theorem getUpcomingAppointments_earliest
    (c : clock) (tbl : list appointment) (limit : nat) :
  let result := AppointmentQueries.getUpcomingAppointments c tbl limit in
  (List.length result <= limit)%nat
  /\ StronglySorted by_date result
  /\ (forall r, In r result ->
        In r tbl /\ now c <= appointment_date r
        /\ (status r = scheduled \/ status r = confirmed))
  /\ (forall x, In x tbl -> now c <= appointment_date x ->
        status x = scheduled \/ status x = confirmed ->
        ~ In x result ->
        forall r, In r result -> appointment_date r <= appointment_date x).
Proof.
intros result. subst result. unfold AppointmentQueries.getUpcomingAppointments.
set (p := fun r => (now c <=? appointment_date r)
                   && AppointmentQueries.upcoming (status r)).
set (S := AppointmentQueries.orderBy_appointment_date (filter p tbl)).
assert (Hp : forall r, p r = true <->
               now c <= appointment_date r
               /\ (status r = scheduled \/ status r = confirmed)).
{ intros r. unfold p. rewrite andb_true_iff, Z.leb_le.
  destruct (status r); simpl; intuition discriminate. }
assert (HS : forall r, In r S <-> In r tbl /\ p r = true).
{ intros r. unfold S.
  rewrite (Permutation_in' (x:=r) eq_refl
             (orderBy_appointment_date_perm _)) by reflexivity.
  apply filter_In. }
assert (Hsorted : StronglySorted by_date S)
  by apply orderBy_appointment_date_sorted.
split; [apply firstn_le_length|]. split; [|split].
- rewrite <- (firstn_skipn limit S) in Hsorted.
  clear -Hsorted. induction (firstn limit S) as [|a l IH]; [constructor|].
  simpl in Hsorted. inversion Hsorted as [|? ? Hl Hall]; subst.
  constructor; [now apply IH|].
  rewrite Forall_forall in *. intros y Hy. apply Hall.
  apply in_or_app. now left.
- intros r Hr.
  assert (Hin : In r S)
    by (rewrite <- (firstn_skipn limit S); apply in_or_app; now left).
  apply HS in Hin. destruct Hin as [Ht Hq]. apply Hp in Hq. tauto.
- intros x Hx Hnow Hst Hout r Hr.
  assert (Hin : In x S) by (apply HS; split; [exact Hx|]; apply Hp; tauto).
  rewrite <- (firstn_skipn limit S) in Hin. apply in_app_or in Hin.
  destruct Hin as [Hin|Hin]; [contradiction|].
  exact (sorted_firstn_skipn by_date limit S r x Hsorted Hr Hin).
Qed.

Section Pages.

Lemma firstn_add {A : Type} (a b : nat) (l : list A) :
  firstn (a + b) l = (firstn a l ++ firstn b (skipn a l))%list.
Proof.
revert l. induction a as [|a IH]; intros l; simpl; [reflexivity|].
destruct l as [|x l]; simpl; [now rewrite firstn_nil|]. now rewrite IH.
Qed.

(** A slice between two bounds that are not negative. *)
Lemma slice_window {A : Type} (l : list A) (k n : Z) :
  0 <= k -> 0 <= n ->
  JSArray.slice l k (k + n)
  = firstn (Z.to_nat n) (skipn (Z.to_nat k) l).
Proof.
intros Hk Hn. unfold JSArray.slice, JSArray.clamp.
set (len := Z.of_nat (List.length l)).
destruct (Z.ltb_spec k 0); [lia|]. destruct (Z.ltb_spec (k + n) 0); [lia|].
destruct (Z_le_gt_dec k len) as [Hle|Hgt].
- rewrite (Z.min_l k len) by lia.
  assert (Hlen : List.length (skipn (Z.to_nat k) l)
                 = Z.to_nat (len - k)).
  { rewrite length_skipn. subst len. lia. }
  destruct (Z_le_gt_dec (k + n) len) as [Hle'|Hgt'].
  + rewrite Z.min_l by lia. f_equal. lia.
  + rewrite Z.min_r by lia.
    rewrite !firstn_all2; [reflexivity|rewrite Hlen; lia|rewrite Hlen; lia].
- rewrite !skipn_all2; [now rewrite !firstn_nil| |]; subst len; lia.
Qed.

Lemma concat_chunks {A : Type} (w n : nat) (l : list A) :
  List.concat (map (fun i => firstn w (skipn (i * w) l)) (seq 0 n))
  = firstn (n * w) l.
Proof.
induction n as [|n IH]; [reflexivity|].
rewrite seq_S, map_app, concat_app, IH. simpl.
rewrite app_nil_r, (Nat.add_comm w (n * w)). symmetry. apply firstn_add.
Qed.

(** [Math.ceil(len / w)] pages of [w] rows cover [len] rows, and the last
    of them is not empty. *)
Lemma ceil_div_pages (len w : Z) :
  0 <= len -> 0 < w ->
  exists n,
    AppointmentListing.ceil_div len w = Some n
    /\ 0 <= n /\ len <= n * w /\ (n - 1) * w < len.
Proof.
intros Hlen Hw. exists (- ((- len) / w)).
unfold AppointmentListing.ceil_div.
destruct (Z.eqb_spec w 0); [lia|]. split; [reflexivity|].
pose proof (Z.div_mod (- len) w ltac:(lia)) as E.
pose proof (Z.mod_pos_bound (- len) w Hw) as B.
nia.
Qed.

End Pages.

(** X7: with a positive [limit], the pages 1 to [totalPages] of
    [getAllAppointments] are, one after the other, exactly the rows
    [findAll] returns for the filters of the query; none of these pages is
    empty, each but the last holds [limit] rows, and every later page is
    empty.  [total] is the number of those rows on every page. *)
Theorem getAllAppointments_pages
    (utcOffset : Z) (tbl : list appointment) (q : AppointmentListing.query)
    (w : Z) :
  0 < w ->
  let all :=
    AppointmentQueries.findAll utcOffset tbl (AppointmentListing.filters_of q) in
  let answer p :=
    AppointmentListing.getAllAppointments utcOffset tbl
      (AppointmentListing.at_page q p w) in
  exists n : nat,
    (forall p, AppointmentListing.totalPages (answer p) = Some (Z.of_nat n)
               /\ AppointmentListing.total (answer p) = List.length all)
    /\ List.concat
         (map (fun i => AppointmentListing.data (answer (Z.of_nat i + 1)))
              (seq 0 n)) = all
    /\ (forall p, 1 <= p <= Z.of_nat n ->
          AppointmentListing.data (answer p) <> []
          /\ Z.of_nat (List.length (AppointmentListing.data (answer p))) <= w)
    /\ (forall p, 1 <= p < Z.of_nat n ->
          Z.of_nat (List.length (AppointmentListing.data (answer p))) = w)
    /\ (forall p, Z.of_nat n < p -> AppointmentListing.data (answer p) = []).
Proof.
intros Hw all answer.
set (len := Z.of_nat (List.length all)).
destruct (ceil_div_pages len w ltac:(lia) Hw) as (nz & Hceil & Hn0 & Hup & Hlow).
assert (Hdata : forall p, 1 <= p ->
          AppointmentListing.data (answer p)
          = firstn (Z.to_nat w) (skipn (Z.to_nat ((p - 1) * w)) all)).
{ intros p Hp. unfold answer, AppointmentListing.getAllAppointments.
  cbn [AppointmentListing.data AppointmentListing.at_page
       AppointmentListing.q_page AppointmentListing.q_limit Appointment.pick].
  apply slice_window; nia. }
assert (Hlen : forall p, 1 <= p ->
          List.length (AppointmentListing.data (answer p))
          = Nat.min (Z.to_nat w) (List.length all - Z.to_nat ((p - 1) * w))).
{ intros p Hp. now rewrite (Hdata p Hp), length_firstn, length_skipn. }
exists (Z.to_nat nz). rewrite Z2Nat.id by exact Hn0.
split; [|split; [|split; [|split]]].
- intros p. split; [exact Hceil|reflexivity].
- rewrite (map_ext _ (fun i => firstn (Z.to_nat w)
                                 (skipn (i * Z.to_nat w) all))).
  + rewrite concat_chunks. apply firstn_all2. subst len. nia.
  + intros i. rewrite Hdata by lia. do 2 f_equal. nia.
- intros p Hp. split.
  + intros E. apply (f_equal (@List.length _)) in E.
    rewrite Hlen in E by lia. simpl in E. subst len. nia.
  + rewrite Hlen by lia. lia.
- intros p Hp. rewrite Hlen by lia. subst len. nia.
- intros p Hp. rewrite Hdata by lia.
  rewrite skipn_all2; [apply firstn_nil|]. subst len. nia.
Qed.

Lemma getAllAppointments_pages_witness :
  let tbl :=
    [ Sample.booking Sample.id1 "A2024030001" Sample.nine 30 scheduled;
      Sample.booking Sample.id2 "A2024030002" (Sample.nine + 3600000) 30
        confirmed;
      Sample.booking Sample.id3 "A2024030003" (Sample.nine + 1800000) 30
        scheduled ] in
  let q := AppointmentListing.mkQuery None None None None None None None None in
  0 < 2
  /\ exists n : nat,
       AppointmentListing.totalPages
         (AppointmentListing.getAllAppointments 0 tbl
            (AppointmentListing.at_page q 1 2)) = Some (Z.of_nat n)
       /\ n = 2%nat.
Proof.
intros tbl q. assert (H : 0 < 2) by lia. split; [exact H|].
destruct (getAllAppointments_pages 0 tbl q 2 H) as (n & Hn & _).
exists n. destruct (Hn 1) as [E _]. split; [exact E|].
assert (E' : AppointmentListing.totalPages
               (AppointmentListing.getAllAppointments 0 tbl
                  (AppointmentListing.at_page q 1 2)) = Some 2)
  by reflexivity.
rewrite E' in E. injection E as E. lia.
Defined.

Section Counting.

Import AppointmentQueries.

Lemma count_when_le p tbl : (count_when p tbl <= List.length tbl)%nat.
Proof. apply filter_length_le. Qed.

Lemma count_when_imp p q tbl :
  (forall r, p r = true -> q r = true) ->
  (count_when p tbl <= count_when q tbl)%nat.
Proof.
intros H. unfold count_when. induction tbl as [|r tbl IH]; simpl; [lia|].
destruct (p r) eqn:Ep.
- rewrite (H r Ep). simpl. lia.
- destruct (q r); simpl; lia.
Qed.

Lemma count_when_three p q s tbl :
  (forall r, p r = true -> q r = false /\ s r = false) ->
  (forall r, q r = true -> s r = false) ->
  (count_when p tbl + count_when q tbl + count_when s tbl
   <= List.length tbl)%nat.
Proof.
intros H1 H2. unfold count_when. induction tbl as [|r tbl IH]; simpl; [lia|].
destruct (p r) eqn:Ep.
- destruct (H1 r Ep) as [-> ->]. simpl. lia.
- destruct (q r) eqn:Eq.
  + rewrite (H2 r Eq). simpl. lia.
  + destruct (s r); simpl; lia.
Qed.

Lemma startOfDay_next utcOffset t :
  Moment.startOfDay utcOffset (t + Moment.day)
  = Moment.startOfDay utcOffset t + Moment.day.
Proof.
unfold Moment.startOfDay.
replace (t + Moment.day + utcOffset) with (t + utcOffset + 1 * Moment.day)
  by lia.
rewrite Z_mod_plus_full. lia.
Qed.

Lemma weekday_range utcOffset t : 0 <= Moment.weekday utcOffset t <= 6.
Proof.
unfold Moment.weekday.
pose proof (Z.mod_pos_bound ((t + utcOffset) / Moment.day + 4) 7). lia.
Qed.

(** The day of [t] is within the week of [t]. *)
Lemma day_within_week utcOffset t d :
  Moment.startOfDay utcOffset t <= d
  < Moment.startOfDay utcOffset (t + Moment.day) ->
  Moment.startOfWeek utcOffset t <= d <= Moment.endOfWeek utcOffset t.
Proof.
rewrite startOfDay_next. unfold Moment.endOfWeek, Moment.startOfWeek.
pose proof (weekday_range utcOffset t). unfold Moment.day in *. nia.
Qed.

(** Rewriting the row of a key changes a count by that row alone. *)
Lemma count_when_update_where p g i tbl x :
  NoDup (map id tbl) ->
  (forall r, id (g r) = id r) ->
  Appointment.findById tbl i = Some x ->
  (count_when p (Appointment.update_where g i tbl)
   + (if p x then 1 else 0)
   = count_when p tbl + (if p (g x) then 1 else 0))%nat.
Proof.
intros Hnd Hg. unfold count_when, Appointment.findById.
induction tbl as [|r tbl IH]; simpl; [discriminate|].
inversion Hnd as [|? ? Hnot Hnd']; subst.
destruct (String.eqb_spec (id r) i) as [E|E].
- intros [= ->].
  assert (Hmiss : Appointment.findById tbl i = None).
  { destruct (Appointment.findById tbl i) as [y|] eqn:Ey; [|reflexivity].
    apply findById_In in Ey. destruct Ey as [Hy Ei]. exfalso. apply Hnot.
    rewrite E, <- Ei. now apply in_map. }
  fold (Appointment.update_where g i tbl).
  rewrite (update_where_missing g i tbl Hmiss).
  destruct (p x), (p (g x)); simpl; lia.
- intros Hx. specialize (IH Hnd' Hx).
  fold (Appointment.update_where g i tbl).
  unfold Appointment.update_where in *. destruct (p r); simpl; lia.
Qed.

End Counting.

(** X8: in the statistics the appointments of today are among those of
    the week, those of the week among all, and the scheduled, completed
    and cancelled ones together are no more than all. *)
Theorem getAppointmentStats_consistent
    (utcOffset : Z) (c : clock) (tbl : list appointment) :
  let s := AppointmentQueries.getAppointmentStats utcOffset c tbl in
  (AppointmentQueries.today_appointments s
   <= AppointmentQueries.week_appointments s)%nat
  /\ (AppointmentQueries.week_appointments s
      <= AppointmentQueries.total_appointments s)%nat
  /\ (AppointmentQueries.scheduled_appointments s
      + AppointmentQueries.completed_appointments s
      + AppointmentQueries.cancelled_appointments s
      <= AppointmentQueries.total_appointments s)%nat.
Proof.
cbn. split; [|split].
- apply count_when_imp. intros r.
  unfold AppointmentQueries.between.
  rewrite !andb_true_iff, !Z.leb_le, Z.ltb_lt. intros H.
  apply (day_within_week utcOffset (now c)). lia.
- apply count_when_le.
- apply count_when_three; intros r; destruct (status r); simpl;
    intuition discriminate.
Qed.

(** X9: a cancel request that succeeds raises the number of cancelled
    appointments of the statistics by one and leaves the total; the
    appointment leaves the count of its former status. *)
Theorem cancelAppointment_in_stats
    (utcOffset : Z) (actor : string) (c c' : clock) (db : database)
    (i : string) (reason : option string) (x : appointment) :
  NoDup (map id (appointments db)) ->
  Appointment.findById (appointments db) i = Some x ->
  snd (AppointmentController.cancelAppointment actor c db i reason)
  = Success 200 None ->
  let before :=
    AppointmentQueries.getAppointmentStats utcOffset c' (appointments db) in
  let after :=
    AppointmentQueries.getAppointmentStats utcOffset c'
      (appointments
         (fst (AppointmentController.cancelAppointment actor c db i reason))) in
  AppointmentQueries.total_appointments after
  = AppointmentQueries.total_appointments before
  /\ AppointmentQueries.cancelled_appointments after
     = S (AppointmentQueries.cancelled_appointments before)
  /\ (AppointmentQueries.scheduled_appointments after
      + (if status_eqb (status x) scheduled then 1 else 0)
      = AppointmentQueries.scheduled_appointments before)%nat
  /\ (AppointmentQueries.completed_appointments after
      + (if status_eqb (status x) completed then 1 else 0)
      = AppointmentQueries.completed_appointments before)%nat.
Proof.
intros Hnd Hx.
unfold AppointmentController.cancelAppointment. rewrite Hx.
destruct (status_eqb_spec (status x) cancelled) as [E|Hst]; [discriminate|].
destruct (Postgres.fits_string _); [|discriminate]. intros _.
rewrite (update_result _ _ _ _ x Hx).
cbn [fst AppointmentController.with_appointments appointments].
set (g := Appointment.apply_update c
            (AppointmentController.cancellation actor c reason)).
assert (Hg : forall r, id (g r) = id r) by reflexivity.
cbn. split; [apply update_where_length|].
pose proof (count_when_update_where
              (fun r => status_eqb (status r) cancelled) g i _ x Hnd Hg Hx) as H1.
pose proof (count_when_update_where
              (fun r => status_eqb (status r) scheduled) g i _ x Hnd Hg Hx) as H2.
pose proof (count_when_update_where
              (fun r => status_eqb (status r) completed) g i _ x Hnd Hg Hx) as H3.
cbn beta in H1, H2, H3.
change (status (g x)) with cancelled in H1, H2, H3.
destruct (status_eqb_spec (status x) cancelled) as [E|_]; [contradiction|].
simpl in H1, H2, H3. repeat split; lia.
Qed.

Lemma cancelAppointment_in_stats_witness :
  let x := Sample.booking Sample.id1 "A2024030001" Sample.nine 30 scheduled in
  let db := Sample.clinic [ x ] in
  NoDup (map id (appointments db))
  /\ Appointment.findById (appointments db) Sample.id1 = Some x
  /\ snd (AppointmentController.cancelAppointment Sample.desk1 Sample.morning
            db Sample.id1 None) = Success 200 None
  /\ AppointmentQueries.cancelled_appointments
       (AppointmentQueries.getAppointmentStats 0 Sample.morning
          (appointments
             (fst (AppointmentController.cancelAppointment Sample.desk1
                     Sample.morning db Sample.id1 None))))
     = S (AppointmentQueries.cancelled_appointments
            (AppointmentQueries.getAppointmentStats 0 Sample.morning
               (appointments db))).
Proof.
intros x db.
assert (H1 : NoDup (map id (appointments db)))
  by (repeat constructor; intros []).
assert (H2 : Appointment.findById (appointments db) Sample.id1 = Some x)
  by reflexivity.
assert (H3 : snd (AppointmentController.cancelAppointment Sample.desk1
                    Sample.morning db Sample.id1 None) = Success 200 None)
  by reflexivity.
split; [exact H1|]. split; [exact H2|]. split; [exact H3|].
exact (proj1 (proj2 (cancelAppointment_in_stats 0 Sample.desk1 Sample.morning
                       Sample.morning db Sample.id1 None x H1 H2 H3))).
Defined.

Section Numerals.

Lemma string_of_uint_digits d :
  all_digits (NilEmpty.string_of_uint d) = true.
Proof. induction d; simpl; auto. Qed.

Lemma string_of_uint_value_acc d : forall acc,
  digits_value_from (Z.pos acc) (NilEmpty.string_of_uint d)
  = Z.pos (Pos.of_uint_acc d acc).
Proof.
induction d; intros acc; cbn [NilEmpty.string_of_uint digits_value_from
  Pos.of_uint_acc]; [reflexivity|..];
  rewrite <- IHd; f_equal; vm_compute (Z.of_nat (nat_of_ascii _) - 48); lia.
Qed.

Lemma string_of_uint_value d :
  digits_value (NilEmpty.string_of_uint d) = Z.of_N (Pos.of_uint d).
Proof.
unfold digits_value.
induction d; cbn [NilEmpty.string_of_uint digits_value_from Pos.of_uint];
  [reflexivity|exact IHd|..];
  vm_compute (0 * 10 + (Z.of_nat (nat_of_ascii _) - 48));
  apply string_of_uint_value_acc.
Qed.

Lemma toString_pos p :
  JS.toString (Z.pos p) = NilEmpty.string_of_uint (Pos.to_uint p).
Proof.
unfold JS.toString. cbn [Z.to_int NilZero.string_of_int].
pose proof (DecimalPos.Unsigned.to_uint_nonnil p) as H.
unfold NilZero.string_of_uint. destruct (Pos.to_uint p); congruence.
Qed.

(** The decimal numeral of a natural number is made of digits and
    denotes it. *)
Lemma toString_value k :
  0 <= k -> all_digits (JS.toString k) = true /\ digits_value (JS.toString k) = k.
Proof.
intros Hk. destruct k as [|p|p]; [split; reflexivity| |lia].
rewrite toString_pos. split; [apply string_of_uint_digits|].
rewrite string_of_uint_value, DecimalPos.Unsigned.of_to. reflexivity.
Qed.

Lemma nzhead_not_zero d u : Decimal.nzhead d <> Decimal.D0 u.
Proof. induction d; simpl; try discriminate. exact IHd. Qed.

(** It does not start with a zero. *)
Lemma toString_head p :
  exists c s, JS.toString (Z.pos p) = String c s
              /\ 49 <= Z.of_nat (nat_of_ascii c) <= 57.
Proof.
rewrite toString_pos.
assert (U : Decimal.unorm (Pos.to_uint p) = Pos.to_uint p).
{ rewrite <- (DecimalPos.Unsigned.to_of (Pos.to_uint p)).
  now rewrite DecimalPos.Unsigned.of_to. }
pose proof (DecimalPos.Unsigned.to_uint_nonnil p) as Hnil.
pose proof (DecimalPos.Unsigned.to_uint_nonzero p) as Hz.
destruct (Pos.to_uint p) as [|u|u|u|u|u|u|u|u|u|u]; [congruence| |..];
  try (eexists; eexists; split; [reflexivity|vm_compute; split; discriminate]).
exfalso. rewrite DecimalFacts.unorm_D0 in U. unfold Decimal.unorm in U.
destruct (Decimal.nzhead u) eqn:E; try (now apply (nzhead_not_zero u u)).
- injection U as <-. now apply Hz.
- exact (nzhead_not_zero u u (eq_trans E U)).
Qed.

Lemma toString_length k (w : nat) :
  0 <= k < 10 ^ Z.of_nat w -> (1 <= w)%nat ->
  (String.length (JS.toString k) <= w)%nat.
Proof.
intros Hk Hw. destruct k as [|p|p]; [simpl; lia| |lia].
destruct (toString_head p) as (c & s & E & Hc).
destruct (toString_value (Z.pos p) ltac:(lia)) as [Hd Hv].
rewrite E in *. destruct (digits_value_cons c s Hd) as [Ev Hb].
simpl. apply Nat.le_succ_l. apply Nat2Z.inj_lt.
apply (Z.pow_lt_mono_r_iff 10); [lia|lia|]. nia.
Qed.

Lemma all_digits_app a b :
  all_digits (a ++ b) = all_digits a && all_digits b.
Proof.
induction a as [|c a IH]; simpl; [reflexivity|].
now rewrite IH, andb_assoc.
Qed.

Lemma fill_zero n :
  String.length (JS.fill n "0"%char) = n
  /\ all_digits (JS.fill n "0"%char) = true
  /\ forall s, digits_value_from 0 (JS.fill n "0"%char ++ s)
               = digits_value_from 0 s.
Proof.
induction n as [|n (IH1 & IH2 & IH3)]; simpl; [auto|].
rewrite IH1, IH2. repeat split. exact IH3.
Qed.

Lemma string_length_app a b :
  String.length (a ++ b) = (String.length a + String.length b)%nat.
Proof. induction a as [|c a IH]; simpl; [reflexivity|now rewrite IH]. Qed.

(** [padStart(w, '0')] of the numeral of [k] has [w] digits and denotes
    [k], as long as [k] has at most [w] digits. *)
Lemma padStart_value (w : nat) k :
  (1 <= w)%nat -> 0 <= k < 10 ^ Z.of_nat w ->
  digits_of_width w (JS.padStart w "0"%char (JS.toString k)) = true
  /\ digits_value (JS.padStart w "0"%char (JS.toString k)) = k.
Proof.
intros Hw Hk.
destruct (toString_value k ltac:(lia)) as [Hd Hv].
pose proof (toString_length k w Hk Hw) as Hl.
unfold JS.padStart, digits_of_width, digits_value.
destruct (fill_zero (w - String.length (JS.toString k))) as (F1 & F2 & F3).
rewrite string_length_app, F1, all_digits_app, F2, Hd, F3.
split; [|exact Hv]. rewrite andb_true_r. apply Nat.eqb_eq. lia.
Qed.

End Numerals.

Section ScopeOfWidth.

Variable w : nat.
Hypothesis two_digits : (2 <= w)%nat.
Variable prefix : string.

Lemma digits_of_width_shape s :
  digits_of_width w s = true ->
  all_digits s = true /\ String.length s = w
  /\ exists c1 c2 r, s = String c1 (String c2 r).
Proof.
unfold digits_of_width. rewrite andb_true_iff, Nat.eqb_eq. intros [L A].
split; [exact A|]. split; [exact L|].
destruct s as [|c1 [|c2 r]]; simpl in L; try lia. now exists c1, c2, r.
Qed.

Lemma compare_of_width a b :
  String.prefix prefix a = true -> digits_of_width w (trailing prefix a) = true ->
  String.prefix prefix b = true -> digits_of_width w (trailing prefix b) = true ->
  String.compare a b
  = Z.compare (sequence_of prefix a) (sequence_of prefix b).
Proof.
intros Pa Fa Pb Fb.
rewrite (prefix_split _ _ Pa), (prefix_split _ _ Pb) at 1.
rewrite compare_app.
destruct (digits_of_width_shape _ Fa) as (Aa & La & _).
destruct (digits_of_width_shape _ Fb) as (Ab & Lb & _).
apply compare_digits; congruence.
Qed.

Lemma greatest_of_width l :
  (forall s, In s l -> String.prefix prefix s = true
                       /\ digits_of_width w (trailing prefix s) = true) ->
  match Appointment.greatest l with
  | None => l = []
  | Some g =>
      In g l /\ forall s, In s l -> sequence_of prefix s <= sequence_of prefix g
  end.
Proof.
induction l as [|s l IH]; intros Hp; simpl; [reflexivity|].
assert (Hl : forall x, In x l -> String.prefix prefix x = true
                       /\ digits_of_width w (trailing prefix x) = true)
  by (intros x Hx; apply Hp; now right).
specialize (IH Hl).
destruct (Appointment.greatest l) as [m|].
- destruct IH as [Hm Hmax]. unfold Appointment.greater.
  destruct (Hp s (or_introl eq_refl)) as [Ps Fs].
  destruct (Hl m Hm) as [Pm Fm].
  rewrite (compare_of_width s m Ps Fs Pm Fm).
  destruct (Z.compare_spec (sequence_of prefix s) (sequence_of prefix m))
    as [E|E|E].
  + split; [now left|]. intros x [<-|Hx]; [lia|]. specialize (Hmax x Hx). lia.
  + split; [now right|]. intros x [<-|Hx]; [lia|]. now apply Hmax.
  + split; [now left|]. intros x [<-|Hx]; [lia|]. specialize (Hmax x Hx). lia.
- subst l. split; [now left|]. intros x [<-|[]]. lia.
Qed.

(** In a scope of numbers of [w] digits the next number is the greatest
    sequence plus one, or one when the scope is empty. *)
Lemma next_number_of_width numbers :
  scope_of_width w prefix numbers ->
  Appointment.next_number prefix numbers
  = Some (last_sequence prefix numbers + 1).
Proof.
intros Hp. unfold Appointment.next_number, last_sequence.
assert (Hin : forall s, In s (Appointment.in_scope prefix numbers) ->
                String.prefix prefix s = true
                /\ digits_of_width w (trailing prefix s) = true).
{ intros s Hs. unfold Appointment.in_scope in Hs. apply filter_In in Hs.
  destruct Hs as [Hs Hpre]. split; [exact Hpre|now apply Hp]. }
pose proof (greatest_of_width _ Hin) as Hg.
destruct (Appointment.greatest (Appointment.in_scope prefix numbers))
  as [g|].
- destruct Hg as [Hgin Hmax]. destruct (Hin g Hgin) as [Pg Fg].
  destruct (digits_of_width_shape _ Fg) as (Ag & _ & c1 & c2 & r & Eg).
  rewrite (remove_first_prefix _ _ Pg), Eg, parseInt_digits by (now rewrite <- Eg).
  rewrite <- Eg. simpl.
  assert (greatest_sequence prefix numbers = Some (sequence_of prefix g))
    as ->; [|reflexivity].
  apply greatest_sequence_spec. unfold sequences. split.
  + apply in_map_iff. now exists g.
  + intros k Hk. apply in_map_iff in Hk. destruct Hk as (s & <- & Hs).
    now apply Hmax.
- apply greatest_sequence_none in Hg. now rewrite Hg.
Qed.

Lemma last_sequence_bounds numbers :
  scope_of_width w prefix numbers ->
  0 <= last_sequence prefix numbers
  /\ forall s, In s numbers -> String.prefix prefix s = true ->
       sequence_of prefix s <= last_sequence prefix numbers.
Proof.
intros Hp. unfold last_sequence.
destruct (greatest_sequence prefix numbers) as [m|] eqn:E.
- apply greatest_sequence_spec in E. destruct E as [Hin Hmax]. split.
  + unfold sequences in Hin. apply in_map_iff in Hin.
    destruct Hin as (s & <- & Hs). apply filter_In in Hs.
    destruct Hs as [Hs Hpre]. apply digits_value_nonneg.
    now destruct (digits_of_width_shape _ (Hp s Hs Hpre)).
  + intros s Hs Hpre. apply Hmax. unfold sequences. apply in_map.
    apply filter_In. now split.
- split; [lia|]. intros s Hs Hpre. apply greatest_sequence_none in E.
  assert (In s (Appointment.in_scope prefix numbers))
    by (apply filter_In; now split).
  rewrite E in H. destruct H.
Qed.

End ScopeOfWidth.

(** X13: when every patient number of the year is 'P' + year followed by
    six digits and the greatest sequence is below 999999, the generated
    patient number is that prefix followed by the greatest sequence plus
    one (one when the year has none yet) zero-padded to six digits, and
    it is none of the existing numbers. *)
Theorem generatePatientNumber_is_next_and_new
    (c : clock) (numbers : list string) :
  let prefix := Patient.number_prefix (fullYear c) in
  scope_of_width 6 prefix numbers ->
  last_sequence prefix numbers < 999999 ->
  exists d,
    Patient.generatePatientNumber c numbers = prefix ++ d
    /\ digits_of_width 6 d = true
    /\ digits_value d = last_sequence prefix numbers + 1
    /\ ~ In (prefix ++ d) numbers.
Proof.
intros prefix Hp Hlt.
destruct (last_sequence_bounds 6 ltac:(lia) prefix numbers Hp) as [H0 Hmax].
exists (JS.padStart 6 "0"%char (JS.toString (last_sequence prefix numbers + 1))).
destruct (padStart_value 6 (last_sequence prefix numbers + 1)) as [Hd Hv];
  [lia|simpl; lia|].
split; [|split; [exact Hd|split; [exact Hv|]]].
- unfold Patient.generatePatientNumber. fold prefix.
  change (match Appointment.greatest (filter (String.prefix prefix) numbers) with
          | Some lastPatient =>
              JS.succ (JS.parseInt (JS.remove_first prefix lastPatient))
          | None => Some 1
          end) with (Appointment.next_number prefix numbers).
  rewrite (next_number_of_width 6 ltac:(lia) prefix numbers Hp). reflexivity.
- intros Hin. specialize (Hmax _ Hin (prefix_app _ _)).
  unfold sequence_of in Hmax. rewrite trailing_app, Hv in Hmax. lia.
Qed.

Lemma generatePatientNumber_is_next_and_new_witness :
  let c := Sample.morning in
  let numbers := [ "P2024000041"; "P2023000007"; "P2024000042" ] in
  let prefix := Patient.number_prefix (fullYear c) in
  scope_of_width 6 prefix numbers
  /\ last_sequence prefix numbers < 999999
  /\ Patient.generatePatientNumber c numbers = "P2024000043"
  /\ exists d, Patient.generatePatientNumber c numbers = prefix ++ d
               /\ digits_value d = last_sequence prefix numbers + 1.
Proof.
intros c numbers prefix.
assert (H1 : scope_of_width 6 prefix numbers).
{ intros s [<-|[<-|[<-|[]]]] Hs; reflexivity. }
assert (H2 : last_sequence prefix numbers < 999999) by reflexivity.
split; [exact H1|]. split; [exact H2|]. split; [reflexivity|].
destruct (generatePatientNumber_is_next_and_new c numbers H1 H2)
  as (d & E & _ & Hv & _).
now exists d.
Defined.

Section MonthlyScopes.

Lemma string_app_inj a a' b b' :
  String.length a = String.length a' -> a ++ b = a' ++ b' ->
  a = a' /\ b = b'.
Proof.
revert a'. induction a as [|c a IH]; intros [|c' a'] L E; simpl in *;
  try discriminate L.
- now split.
- injection E as -> E. injection L as L.
  destruct (IH a' L E) as [-> ->]. now split.
Qed.

Lemma prefix_same_length a b d :
  String.prefix a (b ++ d) = true -> String.length a = String.length b ->
  a = b.
Proof.
revert b. induction a as [|c a IH]; intros [|c' b] H L; simpl in *;
  try discriminate L; [reflexivity|].
destruct (ascii_dec c c') as [<-|]; [|discriminate]. f_equal.
apply IH; [exact H|now injection L].
Qed.

Lemma toString_four y :
  1000 <= y <= 9999 ->
  String.length (JS.toString y) = 4%nat /\ digits_value (JS.toString y) = y.
Proof.
intros Hy. destruct (toString_value y ltac:(lia)) as [Hd Hv].
split; [|exact Hv].
pose proof (toString_length y 4 ltac:(simpl; lia) ltac:(lia)) as Hle.
destruct (digits_value_from_bounds (JS.toString y) 0 Hd) as [_ Hb].
fold (digits_value (JS.toString y)) in Hb. rewrite Hv in Hb.
destruct (Nat.le_gt_cases 4 (String.length (JS.toString y))) as [H|H]; [lia|].
exfalso.
assert (10 ^ Z.of_nat (String.length (JS.toString y)) <= 10 ^ 3)
  by (apply Z.pow_le_mono_r; lia).
lia.
Qed.

(** The prefix of a month has seven characters and tells the month. *)
Lemma number_prefix_tells y m y' m' :
  1000 <= y <= 9999 -> 0 <= m <= 11 ->
  1000 <= y' <= 9999 -> 0 <= m' <= 11 ->
  String.length (Appointment.number_prefix y m) = 7%nat
  /\ (Appointment.number_prefix y m = Appointment.number_prefix y' m' ->
      y = y' /\ m = m').
Proof.
intros Hy Hm Hy' Hm'.
destruct (toString_four y Hy) as [Ly Vy].
destruct (toString_four y' Hy') as [Ly' Vy'].
destruct (padStart_value 2 (m + 1)) as [Dm Vm]; [lia|simpl; lia|].
destruct (padStart_value 2 (m' + 1)) as [Dm' Vm']; [lia|simpl; lia|].
unfold Appointment.number_prefix. split.
- cbn [append String.length]. rewrite string_length_app, Ly.
  unfold digits_of_width in Dm. apply andb_true_iff in Dm.
  destruct Dm as [Dm _]. apply Nat.eqb_eq in Dm. now rewrite Dm.
- cbn [append]. intros [= E].
  apply string_app_inj in E; [|congruence]. destruct E as [E1 E2].
  split; [congruence|].
  assert (m + 1 = m' + 1) by congruence. lia.
Qed.

End MonthlyScopes.

(** X14: the numbering of a month is separate from every other month
    (years of four digits): a number made for another month is never in
    the scope of the current one, so when the table holds only numbers of
    other months the generated number is the prefix followed by 0001. *)
Theorem generateAppointmentNumber_starts_anew_each_month
    (c : clock) (tbl : list appointment) :
  1000 <= fullYear c <= 9999 ->
  0 <= monthIndex c <= 11 ->
  let prefix := Appointment.number_prefix (fullYear c) (monthIndex c) in
  (forall y m d, 1000 <= y <= 9999 -> 0 <= m <= 11 ->
     (String.prefix prefix (Appointment.number_prefix y m ++ d) = true
      <-> y = fullYear c /\ m = monthIndex c))
  /\ ((forall r, In r tbl ->
         exists y m d,
           appointment_number r = Appointment.number_prefix y m ++ d
           /\ 1000 <= y <= 9999 /\ 0 <= m <= 11
           /\ (y <> fullYear c \/ m <> monthIndex c)) ->
      Appointment.generateAppointmentNumber c tbl = prefix ++ "0001").
Proof.
intros Hy Hm prefix.
assert (Hsep : forall y m d, 1000 <= y <= 9999 -> 0 <= m <= 11 ->
          (String.prefix prefix (Appointment.number_prefix y m ++ d) = true
           <-> y = fullYear c /\ m = monthIndex c)).
{ intros y m d Hy' Hm'. split.
  - intros H.
    destruct (number_prefix_tells (fullYear c) (monthIndex c) y m Hy Hm Hy' Hm')
      as [L1 Hinj].
    destruct (number_prefix_tells y m y m Hy' Hm' Hy' Hm') as [L2 _].
    apply prefix_same_length in H; [|unfold prefix; congruence].
    destruct (Hinj H) as [-> ->]. now split.
  - intros [-> ->]. apply prefix_app. }
split; [exact Hsep|]. intros Hother.
unfold Appointment.generateAppointmentNumber, Appointment.number_after.
fold prefix. unfold Appointment.next_number, Appointment.in_scope.
assert (E : filter (String.prefix prefix) (map appointment_number tbl) = []).
{ apply filter_nil_iff. intros s Hs. apply in_map_iff in Hs.
  destruct Hs as (r & <- & Hr).
  destruct (Hother r Hr) as (y & m & d & -> & Hy' & Hm' & Hne).
  apply not_true_is_false. intros H. apply Hsep in H; [|exact Hy'|exact Hm'].
  destruct H as [-> ->]. destruct Hne as [Hne|Hne]; now apply Hne. }
rewrite E. reflexivity.
Qed.

Lemma generateAppointmentNumber_starts_anew_each_month_witness :
  let c := mkClock 1711965600000 2024 3 in
  let tbl :=
    [ Sample.booking Sample.id1 "A2024030001" Sample.nine 30 completed;
      Sample.booking Sample.id2 "A2024030002" (Sample.nine + 3600000) 30
        completed ] in
  1000 <= fullYear c <= 9999
  /\ 0 <= monthIndex c <= 11
  /\ Appointment.generateAppointmentNumber c tbl = "A2024040001".
Proof.
intros c tbl.
assert (H1 : 1000 <= fullYear c <= 9999) by (simpl; lia).
assert (H2 : 0 <= monthIndex c <= 11) by (simpl; lia).
split; [exact H1|]. split; [exact H2|].
apply (proj2 (generateAppointmentNumber_starts_anew_each_month c tbl H1 H2)).
intros r [<-|[<-|[]]].
- exists 2024, 2, "0001". simpl. repeat split; lia.
- exists 2024, 2, "0002". simpl. repeat split; lia.
Defined.

(** X15: on the appointment routes [requireRole] answers 401 without an
    authenticated user and lets every staff member through, whatever the
    role, except on the statistics, which only admins and doctors pass;
    the others are answered 403. *)
Theorem requireRole_on_appointment_routes (r : Access.route) :
  Access.requireRole (Access.roles_of r) None
  = Some (Failure 401 "Authentication required")
  /\ (forall u, r <> Access.Stats ->
        Access.requireRole (Access.roles_of r) (Some u) = None)
  /\ (forall u,
        Access.requireRole (Access.roles_of Access.Stats) (Some u)
        = if user_role_eqb (role u) admin || user_role_eqb (role u) doctor
          then None
          else Some (Failure 403 "Insufficient permissions")).
Proof.
split; [reflexivity|]. split.
- intros [ui ro st] Hr. destruct r, ro; try reflexivity; now elim Hr.
- intros [ui [] st]; reflexivity.
Qed.

Section Doctors.

Import User.

Lemma insert_by_name_perm m l : Permutation (insert_by_name m l) (m :: l).
Proof.
induction l as [|x l IH]; simpl; [reflexivity|].
destruct (last_name m <=? last_name x)%string; [reflexivity|].
rewrite IH. apply perm_swap.
Qed.

Lemma orderBy_last_name_perm l : Permutation (orderBy_last_name l) l.
Proof.
induction l as [|m l IH]; simpl; [reflexivity|].
rewrite insert_by_name_perm. now constructor.
Qed.

Lemma insert_by_name_sorted m l :
  Sorted by_last_name l -> Sorted by_last_name (insert_by_name m l).
Proof.
induction l as [|x l IH]; intros Hs; simpl; [repeat constructor|].
destruct (last_name m <=? last_name x)%string eqn:E.
- constructor; [exact Hs|]. constructor. exact E.
- assert (Hxm : by_last_name x m).
  { unfold by_last_name.
    destruct (String.leb_total (last_name x) (last_name m)) as [H|H];
      [exact H|congruence]. }
  inversion Hs as [|? ? Hl Hhd]; subst. constructor; [now apply IH|].
  destruct l as [|y l]; simpl.
  + constructor. exact Hxm.
  + destruct (last_name m <=? last_name y)%string; constructor.
    * exact Hxm.
    * now inversion Hhd.
Qed.

Lemma orderBy_last_name_sorted l : Sorted by_last_name (orderBy_last_name l).
Proof.
induction l as [|m l IH]; simpl; [constructor|].
now apply insert_by_name_sorted.
Qed.

Lemma find_user_unique us u :
  NoDup (map user_id us) -> In u us ->
  AppointmentController.find_user us (user_id u) = Some u.
Proof.
unfold AppointmentController.find_user.
induction us as [|x us IH]; intros Hnd Hu; simpl; [destruct Hu|].
inversion Hnd as [|? ? Hnot Hnd']; subst.
destruct Hu as [->|Hu]; [now rewrite String.eqb_refl|].
destruct (String.eqb_spec (user_id x) (user_id u)) as [E|_].
- exfalso. apply Hnot. rewrite E. now apply in_map.
- now apply IH.
Qed.

End Doctors.

(** X16: [getDoctors] lists, by last name, exactly the users that a
    create request may name as its doctor: with distinct user ids, an id
    is that of a listed doctor if and only if the doctor check of
    [createAppointment] lets it pass. *)
Theorem getDoctors_are_the_bookable (tbl : list User.staff_member) :
  NoDup (map user_id (map User.account tbl)) ->
  Sorted by_last_name (User.getDoctors tbl)
  /\ forall i,
       (exists m, In m (User.getDoctors tbl) /\ user_id (User.account m) = i)
       <-> AppointmentController.doctor_unusable
             (AppointmentController.find_user (map User.account tbl) i)
           = false.
Proof.
intros Hnd. split; [apply orderBy_last_name_sorted|].
assert (Hin : forall m, In m (User.getDoctors tbl) <->
                In m tbl /\ role (User.account m) = doctor
                /\ user_state (User.account m) = active).
{ intros m. unfold User.getDoctors.
  rewrite (Permutation_in' (x:=m) eq_refl (orderBy_last_name_perm _))
    by reflexivity.
  rewrite filter_In, andb_true_iff.
  destruct (role (User.account m)), (user_state (User.account m)); simpl;
    intuition discriminate. }
intros i. split.
- intros (m & Hm & <-). apply Hin in Hm. destruct Hm as (Hm & Hr & Hs).
  rewrite (find_user_unique _ (User.account m) Hnd)
    by (now apply in_map).
  simpl. now rewrite Hr, Hs.
- intros H.
  destruct (AppointmentController.find_user (map User.account tbl) i)
    as [u|] eqn:E; [|discriminate H].
  unfold AppointmentController.find_user in E. apply find_some in E.
  destruct E as [Hu Ei]. apply String.eqb_eq in Ei.
  apply in_map_iff in Hu. destruct Hu as (m & <- & Hm).
  exists m. split; [|exact Ei]. apply Hin. split; [exact Hm|].
  simpl in H. apply orb_false_iff in H. destruct H as [H1 H2].
  destruct (role (User.account m)), (user_state (User.account m));
    simpl in *; try discriminate; now split.
Qed.

Lemma getDoctors_are_the_bookable_witness :
  let tbl :=
    [ User.mkStaff (mkUser Sample.doctor1 doctor active)
        "Ada" "Young" (Some "cardiology") "ada@clinic.com";
      User.mkStaff (mkUser Sample.nurse1 nurse active)
        "Ben" "Abbot" None "ben@clinic.com";
      User.mkStaff (mkUser Sample.desk1 doctor suspended)
        "Cy" "Miller" None "cy@clinic.com" ] in
  NoDup (map user_id (map User.account tbl))
  /\ map User.last_name (User.getDoctors tbl) = ["Young"]
  /\ AppointmentController.doctor_unusable
       (AppointmentController.find_user (map User.account tbl) Sample.doctor1)
     = false.
Proof.
intros tbl.
assert (H : NoDup (map user_id (map User.account tbl)))
  by (apply distinctb_spec; reflexivity).
split; [exact H|]. split; [reflexivity|].
apply (proj2 (getDoctors_are_the_bookable tbl H)).
eexists. split; [left; reflexivity|reflexivity].
Defined.

Lemma within_own_day utcOffset t :
  Moment.startOfDay utcOffset t <= t <= Moment.endOfDay utcOffset t.
Proof.
unfold Moment.endOfDay, Moment.startOfDay.
pose proof (Z.mod_pos_bound (t + utcOffset) Moment.day ltac:(reflexivity)).
lia.
Qed.

(** X17: the schedule of a doctor for a day holds, by ascending date,
    exactly the doctor's appointments in status scheduled, confirmed or
    in_progress that start on that day; and every such appointment is on
    the doctor's schedule of the day on which it starts. *)
Theorem getDoctorSchedule_is_the_day
    (utcOffset : Z) (tbl : list appointment) (doctorId : string) (day : Z) :
  StronglySorted by_date
    (AppointmentQueries.getDoctorSchedule utcOffset tbl doctorId day)
  /\ (forall x,
        In x (AppointmentQueries.getDoctorSchedule utcOffset tbl doctorId day)
        <-> In x tbl /\ doctor_id x = doctorId
            /\ (status x = scheduled \/ status x = confirmed
                \/ status x = in_progress)
            /\ Moment.startOfDay utcOffset day <= appointment_date x
               <= Moment.endOfDay utcOffset day)
  /\ (forall x,
        In x tbl -> doctor_id x = doctorId ->
        status x = scheduled \/ status x = confirmed
        \/ status x = in_progress ->
        In x (AppointmentQueries.getDoctorSchedule utcOffset tbl doctorId
                (appointment_date x))).
Proof.
assert (Hocc : forall s, occupies s = true
                 <-> s = scheduled \/ s = confirmed \/ s = in_progress).
{ intros []; simpl; intuition discriminate. }
assert (Hin : forall x d,
          In x (AppointmentQueries.getDoctorSchedule utcOffset tbl doctorId d)
          <-> In x tbl /\ doctor_id x = doctorId
              /\ (status x = scheduled \/ status x = confirmed
                  \/ status x = in_progress)
              /\ Moment.startOfDay utcOffset d <= appointment_date x
                 <= Moment.endOfDay utcOffset d).
{ intros x d. unfold AppointmentQueries.getDoctorSchedule.
  rewrite (Permutation_in' (x:=x) eq_refl
             (orderBy_appointment_date_perm _)) by reflexivity.
  unfold AppointmentQueries.between.
  rewrite filter_In, !andb_true_iff, String.eqb_eq, !Z.leb_le, Hocc. tauto. }
split; [apply orderBy_appointment_date_sorted|]. split; [intros x; apply Hin|].
intros x Hx Hd Hs. apply Hin.
pose proof (within_own_day utcOffset (appointment_date x)). tauto.
Qed.

(** The schedule of 1 March 2024 (UTC): the cancelled appointment and the
    one of the next day are not on it, and the two others come by date. *)
Example schedule_of_the_first_of_march :
  let tbl :=
    [ Sample.booking Sample.id1 "A2024030001" (Sample.nine + 3600000) 30
        confirmed;
      Sample.booking Sample.id2 "A2024030002" Sample.nine 30 scheduled;
      Sample.booking Sample.id3 "A2024030003" (Sample.nine + 1800000) 30
        cancelled;
      Sample.booking Sample.patient1 "A2024030004" (Sample.nine + 86400000) 30
        scheduled ] in
  map id (AppointmentQueries.getDoctorSchedule 0 tbl Sample.doctor1
            (Sample.nine + 7200000))
  = [Sample.id2; Sample.id1].
Proof. reflexivity. Qed.

(** X18: [delete] removes the appointment of the given id and no other:
    the id is not found afterwards, every other id is found as before,
    and the count returned is the number of rows that left the table: one
    when ids are distinct and the id was there, none when it was not. *)
Theorem delete_removes_one_appointment
    (tbl : list appointment) (i : string) :
  let tbl' := fst (AppointmentQueries.delete tbl i) in
  let n := snd (AppointmentQueries.delete tbl i) in
  Appointment.findById tbl' i = None
  /\ (forall j, j <> i ->
        Appointment.findById tbl' j = Appointment.findById tbl j)
  /\ (n + List.length tbl' = List.length tbl)%nat
  /\ (Appointment.findById tbl i = None -> tbl' = tbl /\ n = 0%nat)
  /\ (NoDup (map id tbl) ->
      forall x, Appointment.findById tbl i = Some x -> n = 1%nat).
Proof.
cbn [fst snd AppointmentQueries.delete]. unfold Appointment.findById.
split; [|split; [|split; [|split]]].
- induction tbl as [|r tbl IH]; simpl; [reflexivity|].
  destruct (String.eqb_spec (id r) i) as [E|E]; simpl; [exact IH|].
  destruct (String.eqb_spec (id r) i) as [E'|_]; [contradiction|exact IH].
- intros j Hj. induction tbl as [|r tbl IH]; simpl; [reflexivity|].
  destruct (String.eqb_spec (id r) i) as [E|E]; simpl.
  + destruct (String.eqb_spec (id r) j) as [E'|_]; [congruence|exact IH].
  + destruct (id r =? j)%string; [reflexivity|exact IH].
- induction tbl as [|r tbl IH]; simpl; [reflexivity|].
  destruct (id r =? i)%string; simpl; lia.
- induction tbl as [|r tbl IH]; simpl; [now split|].
  destruct (id r =? i)%string; simpl; [discriminate|].
  intros H. destruct (IH H) as [-> ->]. now split.
- intros Hnd x. induction tbl as [|r tbl IH]; simpl; [discriminate|].
  inversion Hnd as [|? ? Hnot Hnd']; subst.
  destruct (String.eqb_spec (id r) i) as [E|E]; simpl; [|now apply IH].
  intros _. f_equal.
  assert (Hnone : filter (fun y => (id y =? i)%string) tbl = []);
    [|now rewrite Hnone].
  apply filter_nil_iff. intros y Hy. apply String.eqb_neq. intros Ey.
  apply Hnot. rewrite E, <- Ey. now apply in_map.
Qed.

Lemma delete_removes_one_appointment_witness :
  let x := Sample.booking Sample.id1 "A2024030001" Sample.nine 30 scheduled in
  let y := Sample.booking Sample.id2 "A2024030002" (Sample.nine + 3600000) 30
             scheduled in
  let tbl := [x; y] in
  NoDup (map id tbl)
  /\ Appointment.findById tbl Sample.id1 = Some x
  /\ snd (AppointmentQueries.delete tbl Sample.id1) = 1%nat
  /\ Appointment.findById (fst (AppointmentQueries.delete tbl Sample.id1))
       Sample.id1 = None.
Proof.
intros x y tbl.
assert (H1 : NoDup (map id tbl)) by (apply distinctb_spec; reflexivity).
assert (H2 : Appointment.findById tbl Sample.id1 = Some x) by reflexivity.
destruct (delete_removes_one_appointment tbl Sample.id1)
  as (E1 & _ & _ & _ & E5).
split; [exact H1|]. split; [exact H2|]. split; [exact (E5 H1 x H2)|exact E1].
Defined.

Section ValidatedRows.

Import AppointmentController.

Lemma pick_in_range x d :
  Routes.in_range 15 240 x = true -> 15 <= d <= 240 ->
  15 <= Appointment.pick x d <= 240.
Proof.
unfold Routes.in_range, Appointment.pick. destruct x as [v|]; [|auto].
rewrite andb_true_iff, !Z.leb_le. lia.
Qed.

Lemma as_validated_update_where g i tbl :
  (forall r, id (g r) = id r) ->
  (forall r, 15 <= duration_minutes r <= 240 ->
             15 <= duration_minutes (g r) <= 240) ->
  as_validated tbl -> as_validated (Appointment.update_where g i tbl).
Proof.
intros Hid Hdur Hv. unfold as_validated, Appointment.update_where in *.
rewrite Forall_forall in *. intros r Hr. apply in_map_iff in Hr.
destruct Hr as (r0 & <- & Hr0). destruct (Hv r0 Hr0) as [H1 H2].
destruct (id r0 =? i)%string; [|now split].
rewrite Hid. split; [exact H1|now apply Hdur].
Qed.

Lemma handle_keeps_as_validated db x r :
  Routes.uuid x <> "" ->
  as_validated (appointments db) ->
  as_validated (appointments (fst (Routes.handle db (x, r)))).
Proof.
intros Hu Hv. unfold Routes.handle. destruct r as [body|i u|i reason].
- destruct (Routes.appointmentSchema _ _) eqn:Hs; [|exact Hv].
  unfold createAppointment.
  destruct (negb (patient_exists _ _)); [exact Hv|].
  destruct (doctor_unusable _); [exact Hv|].
  rewrite availability_rejected. exact Hv.
- destruct (Routes.appointmentUpdateSchema _ _) eqn:Hs; [|exact Hv].
  unfold updateAppointment.
  destruct (Appointment.findById _ _) as [e|]; [|exact Hv].
  destruct (changes_time u); [rewrite availability_rejected; exact Hv|].
  destruct (Appointment.update _ _ _ _) as [tbl' r] eqn:Hup.
  apply (f_equal fst) in Hup. rewrite update_table in Hup. simpl in Hup.
  subst tbl'. simpl. apply as_validated_update_where; auto.
  intros r0 Hr0. simpl.
  destruct (stamp_fields (Routes.actor x) (Routes.time x) u) as (_ & -> & _).
  apply pick_in_range; [|exact Hr0].
  unfold Routes.appointmentUpdateSchema in Hs. rewrite !andb_true_iff in Hs.
  tauto.
- unfold cancelAppointment.
  destruct (Appointment.findById _ _) as [e|]; [|exact Hv].
  destruct (status_eqb _ _); [exact Hv|].
  destruct (Postgres.fits_string _); [|exact Hv].
  destruct (Appointment.update _ _ _ _) as [tbl' r] eqn:Hup.
  apply (f_equal fst) in Hup. rewrite update_table in Hup. simpl in Hup.
  subst tbl'. simpl. apply as_validated_update_where; auto.
Qed.

End ValidatedRows.

(** X19: the routes never store an appointment with an empty id or with a
    duration outside 15 to 240 minutes: when all rows are so before a
    sequence of requests they are so after it, the new rows included. *)
Theorem run_keeps_rows_as_validated
    (db : database) (l : list (Routes.context * Routes.request)) :
  with_uuids l ->
  as_validated (appointments db) ->
  as_validated (appointments (Routes.run db l)).
Proof.
revert db. induction l as [|[x r] l IH]; intros db Hu Hv; cbn [Routes.run];
  [exact Hv|].
inversion Hu as [|? ? Hx Hl]; subst. apply IH; [exact Hl|].
now apply handle_keeps_as_validated.
Qed.

Lemma run_keeps_rows_as_validated_witness :
  let db :=
    Sample.clinic
      [ Sample.booking Sample.id1 "A2024030001" Sample.nine 45 scheduled ] in
  let l :=
    [ (Sample.at_desk Sample.id2,
       Routes.PostAppointment (Sample.request_for Sample.nine (Some 5)));
      (Sample.at_desk Sample.id2,
       Routes.PutAppointment Sample.id1
         (mkUpdateData None (Some 500) None None None None None None
            None None None None None));
      (Sample.at_desk Sample.id2,
       Routes.PutAppointment Sample.id1 (Sample.set_status confirmed)) ] in
  with_uuids l
  /\ as_validated (appointments db)
  /\ map duration_minutes (appointments (Routes.run db l)) = [45]
  /\ as_validated (appointments (Routes.run db l)).
Proof.
intros db l.
assert (H1 : with_uuids l) by (repeat constructor; discriminate).
assert (H2 : as_validated (appointments db)).
{ repeat constructor; [discriminate|vm_compute; discriminate..]. }
split; [exact H1|]. split; [exact H2|]. split; [vm_compute; reflexivity|].
exact (run_keeps_rows_as_validated db l H1 H2).
Defined.

(** X20: a client cannot set the lifecycle timestamps: after an update
    that passed validation, confirmed_at, started_at, completed_at and
    cancelled_at of the appointment are the server's time when the update
    asked for the matching status and what they were otherwise, and
    cancelled_by is the authenticated user or what it was. *)
Theorem update_stamps_come_from_the_server
    (actor : string) (c : clock) (db : database) (i : string)
    (u : update_data) (x x' : appointment) :
  Routes.appointmentUpdateSchema c u = true ->
  Appointment.findById (appointments db) i = Some x ->
  snd (AppointmentController.updateAppointment actor c db i u)
  = Success 200 (Some x') ->
  confirmed_at x'
  = match upd_status u with
    | Some confirmed => Some (now c)
    | _ => confirmed_at x
    end
  /\ started_at x'
     = match upd_status u with
       | Some in_progress => Some (now c)
       | _ => started_at x
       end
  /\ completed_at x'
     = match upd_status u with
       | Some completed => Some (now c)
       | _ => completed_at x
       end
  /\ cancelled_at x'
     = match upd_status u with
       | Some cancelled => Some (now c)
       | _ => cancelled_at x
       end
  /\ cancelled_by x'
     = match upd_status u with
       | Some cancelled => Some actor
       | _ => cancelled_by x
       end.
Proof.
intros Hv Hx. unfold AppointmentController.updateAppointment. rewrite Hx.
destruct (AppointmentController.changes_time u);
  [rewrite availability_rejected; discriminate|].
rewrite (update_result _ _ _ _ x Hx). cbn [snd]. intros [= <-].
unfold Routes.appointmentUpdateSchema in Hv. rewrite !andb_true_iff in Hv.
destruct Hv as [[[[[_ H1] H2] H3] H4] H5].
unfold Routes.absent in *.
destruct (upd_confirmed_at u) eqn:E1; [discriminate|].
destruct (upd_started_at u) eqn:E2; [discriminate|].
destruct (upd_completed_at u) eqn:E3; [discriminate|].
destruct (upd_cancelled_at u) eqn:E4; [discriminate|].
destruct (upd_cancelled_by u) eqn:E5; [discriminate|].
unfold AppointmentController.stamp.
destruct (upd_status u) as [[]|]; simpl; rewrite ?E1, ?E2, ?E3, ?E4, ?E5;
  repeat split.
Qed.

Lemma update_stamps_come_from_the_server_witness :
  let x := Sample.booking Sample.id1 "A2024030001" Sample.nine 30 scheduled in
  let db := Sample.clinic [ x ] in
  let u := Sample.set_status confirmed in
  let x' := Appointment.apply_update Sample.morning
              (AppointmentController.stamp Sample.desk1 Sample.morning u) x in
  Routes.appointmentUpdateSchema Sample.morning u = true
  /\ Appointment.findById (appointments db) Sample.id1 = Some x
  /\ snd (AppointmentController.updateAppointment Sample.desk1 Sample.morning
            db Sample.id1 u) = Success 200 (Some x')
  /\ confirmed_at x' = Some Sample.eight
  /\ cancelled_at x' = None.
Proof.
intros x db u x'.
assert (H1 : Routes.appointmentUpdateSchema Sample.morning u = true)
  by reflexivity.
assert (H2 : Appointment.findById (appointments db) Sample.id1 = Some x)
  by reflexivity.
assert (H3 : snd (AppointmentController.updateAppointment Sample.desk1
                    Sample.morning db Sample.id1 u) = Success 200 (Some x'))
  by reflexivity.
split; [exact H1|]. split; [exact H2|]. split; [exact H3|].
destruct (update_stamps_come_from_the_server Sample.desk1 Sample.morning db
            Sample.id1 u x x' H1 H2 H3) as (E1 & _ & _ & E4 & _).
split; [exact E1|exact E4].
Defined.

(** X21: the edges of the paging: with [limit] 0 the page is empty and
    [totalPages] is no finite number; page 0 is empty; a page and a limit
    that are left out stand for page 1 of 20 rows. *)
Theorem getAllAppointments_edges
    (utcOffset : Z) (tbl : list appointment) (q : AppointmentListing.query) :
  let answer p w :=
    AppointmentListing.getAllAppointments utcOffset tbl
      (AppointmentListing.at_page q p w) in
  (forall p, AppointmentListing.data (answer p 0) = []
             /\ AppointmentListing.totalPages (answer p 0) = None)
  /\ (forall w, 0 < w -> AppointmentListing.data (answer 0 w) = [])
  /\ (AppointmentListing.q_page q = None ->
      AppointmentListing.q_limit q = None ->
      AppointmentListing.getAllAppointments utcOffset tbl q = answer 1 20).
Proof.
intros answer. subst answer. cbv beta.
unfold AppointmentListing.getAllAppointments.
cbn [AppointmentListing.data AppointmentListing.totalPages
     AppointmentListing.at_page AppointmentListing.q_page
     AppointmentListing.q_limit Appointment.pick].
split; [|split].
- intros p. split; [|reflexivity].
  unfold JSArray.slice. rewrite Z.mul_0_r, Z.add_0_r, Z.sub_diag. reflexivity.
- intros w Hw. unfold JSArray.slice, JSArray.clamp.
  set (len := Z.of_nat (List.length _)).
  destruct (Z.ltb_spec ((0 - 1) * w) 0); [|lia].
  replace ((0 - 1) * w + w) with 0 by lia.
  destruct (Z.ltb_spec 0 0); [lia|].
  replace (Z.to_nat (Z.min 0 len - Z.max (len + (0 - 1) * w) 0)) with 0%nat
    by lia.
  reflexivity.
- intros -> ->. reflexivity.
Qed.

Section NothingMoves.

Import AppointmentController.

Lemma handle_keeps_placement db x r :
  map placement (appointments (fst (Routes.handle db (x, r))))
  = map placement (appointments db).
Proof.
unfold Routes.handle. destruct r as [body|i u|i reason].
- destruct (Routes.appointmentSchema _ _); [|reflexivity].
  unfold createAppointment.
  destruct (negb (patient_exists _ _)); [reflexivity|].
  destruct (doctor_unusable _); [reflexivity|].
  now rewrite availability_rejected.
- destruct (Routes.appointmentUpdateSchema _ _) eqn:Hs; [|reflexivity].
  unfold updateAppointment.
  destruct (Appointment.findById _ _) as [e|]; [|reflexivity].
  destruct (changes_time u) eqn:Hct;
    [now rewrite availability_rejected|].
  destruct (Appointment.update _ _ _ _) as [tbl' r] eqn:Hup.
  apply (f_equal fst) in Hup. rewrite update_table in Hup. simpl in Hup.
  subst tbl'. cbn [fst with_appointments appointments].
  apply update_where_map. intros y. unfold placement, identity. simpl.
  destruct (stamp_fields (Routes.actor x) (Routes.time x) u) as (-> & -> & _).
  assert (upd_appointment_date u = None /\ upd_duration_minutes u = None)
    as [-> ->]; [|reflexivity].
  unfold Routes.appointmentUpdateSchema in Hs. rewrite !andb_true_iff in Hs.
  assert (Hrange : Routes.in_range 15 240 (upd_duration_minutes u) = true)
    by tauto.
  unfold changes_time in Hct. unfold Routes.in_range in Hrange.
  destruct (upd_appointment_date u); [discriminate|].
  destruct (upd_duration_minutes u) as [d|]; [|now split].
  rewrite andb_true_iff, !Z.leb_le in Hrange.
  destruct (Z.eqb_spec d 0); [lia|discriminate].
- unfold cancelAppointment.
  destruct (Appointment.findById _ _) as [e|]; [|reflexivity].
  destruct (status_eqb _ _); [reflexivity|].
  destruct (Postgres.fits_string _); [|reflexivity].
  destruct (Appointment.update _ _ _ _) as [tbl' r] eqn:Hup.
  apply (f_equal fst) in Hup. rewrite update_table in Hup. simpl in Hup.
  subst tbl'. cbn [fst with_appointments appointments].
  now apply update_where_map.
Qed.

End NothingMoves.

(** X22: through the routes no appointment is created, moved or resized:
    whatever create, update and cancel requests are handled, the table
    holds the same appointments in the same order after them, each with
    the date and the duration it had. *)
Theorem run_moves_no_appointment
    (db : database) (l : list (Routes.context * Routes.request)) :
  map placement (appointments (Routes.run db l))
  = map placement (appointments db).
Proof.
revert db. induction l as [|[x r] l IH]; intros db; cbn [Routes.run];
  [reflexivity|].
rewrite IH. apply handle_keeps_placement.
Qed.

(** X23: a request that reaches the availability check is answered 500
    and changes nothing: a create request whose patient is on file and
    whose doctor is an active doctor, and an update of an existing
    appointment whose body carries a date or a duration other than 0. *)
Theorem checked_requests_are_answered_500
    (uuid actor : string) (c : clock) (db : database)
    (body : appointment_data) (i : string) (u : update_data) :
  (AppointmentController.patient_exists (patients db) (req_patient_id body)
   = true ->
   (exists d,
      AppointmentController.find_user (users db) (req_doctor_id body) = Some d
      /\ role d = doctor /\ user_state d = active) ->
   AppointmentController.createAppointment uuid actor c db body
   = (db, Failure 500 "Internal server error"))
  /\ (forall x,
        Appointment.findById (appointments db) i = Some x ->
        upd_appointment_date u <> None
        \/ (exists m, upd_duration_minutes u = Some m /\ m <> 0) ->
        AppointmentController.updateAppointment actor c db i u
        = (db, Failure 500 "Internal server error")).
Proof.
split.
- intros Hp (d & Hd & Hr & Hs).
  unfold AppointmentController.createAppointment.
  rewrite Hp, Hd. cbn [negb AppointmentController.doctor_unusable].
  rewrite Hr, Hs. cbn [user_role_eqb user_status_eqb negb orb].
  now rewrite availability_rejected.
- intros x Hx Hcarries.
  unfold AppointmentController.updateAppointment. rewrite Hx.
  assert (AppointmentController.changes_time u = true) as ->.
  { unfold AppointmentController.changes_time.
    destruct Hcarries as [H|(m & -> & Hm)].
    - destruct (upd_appointment_date u); [reflexivity|contradiction].
    - destruct (upd_appointment_date u); [reflexivity|].
      destruct (Z.eqb_spec m 0); [contradiction|reflexivity]. }
  now rewrite availability_rejected.
Qed.

(** The scenario of the specification: doctor 1 has an appointment from
    09:00 to 09:30.  The request for 09:15 is not answered 409 and the
    request for 09:30 is not answered 201: both are answered 500, and the
    table is as it was. *)
Example scenario_0915_and_0930 :
  let db :=
    Sample.clinic
      [ Sample.booking Sample.id1 "A2024030001" Sample.nine 30 scheduled ] in
  let post date :=
    Routes.handle db
      (Sample.at_desk Sample.id2,
       Routes.PostAppointment (Sample.request_for date (Some 30))) in
  post (Sample.nine + 900000) = (db, Failure 500 "Internal server error")
  /\ post (Sample.nine + 1800000) = (db, Failure 500 "Internal server error").
Proof. split; reflexivity. Qed.
